(** * alx-polly: server actions of a polling application

    A shallow embedding of [app/lib/actions/auth-actions.ts] and of the
    poll actions module (createPoll, getUserPolls, getPollById,
    submitVote, deletePoll, updatePoll), with the in-memory rate limiter
    that both modules carry.

    Conventions
    - a JavaScript [number] holding a timestamp or a counter is a [Z];
    - a JavaScript string is a [string]; its characters stand for UTF-16
      code units, so [String.length] is the [.length] of the source;
    - the [Map] behind [rateLimit] is a [gmap string Entry]; the source
      mutates the stored object in place ([entry.count++]), which on a map
      of values is an insert at the same key. *)

From Stdlib Require Import ZArith String Ascii List Bool Lia.
From stdpp Require Import base option list gmap strings.
Import ListNotations.

Local Open Scope string_scope.
Local Open Scope list_scope.
Local Open Scope Z_scope.

(* ===================================================================== *)
(** * The rate limiter                                                    *)
(* ===================================================================== *)

(** The two action modules each declare the same [rateLimit] map, the same
    two constants and the same [checkRateLimit], character for character.
    One definition serves both; each module threads its own table. *)
Module RateLimit.

(** [{ count: number; lastReset: number }] *)
Record Entry : Type := mkEntry { count : Z; lastReset : Z }.

Definition MAX_ATTEMPTS : Z := 5.
Definition RESET_INTERVAL : Z := 60 * 1000.

(** [new Map<string, { count; lastReset }>()] *)
Definition empty_table : gmap string Entry := ∅.

(** The body of [checkRateLimit] once [Date.now()] has answered [now].
    The first test is [!rateLimit.has(key) || now - lastReset > RESET_INTERVAL]. *)
Definition checkRateLimit_at (now : Z) (key : string)
    (rateLimit : gmap string Entry) : bool * gmap string Entry :=
  match rateLimit !! key with
  | None =>
      (true, <[key := {| count := 1; lastReset := now |}]> rateLimit)
  | Some entry =>
      if now - lastReset entry >? RESET_INTERVAL then
        (true, <[key := {| count := 1; lastReset := now |}]> rateLimit)
      else if count entry >=? MAX_ATTEMPTS then
        (false, rateLimit)
      else
        (true, <[key := {| count := count entry + 1;
                           lastReset := lastReset entry |}]> rateLimit)
  end.

End RateLimit.

(* ===================================================================== *)
(** * The validation library                                              *)
(* ===================================================================== *)

(** The schemas of the two modules are built with zod, which is not part
    of the repository. This module holds the part of zod the actions rely
    on: issues carry a path and a message, a parse collects every issue,
    [safeParse] returns them, [parse] throws them, and [flatten] sorts the
    messages into [formErrors] (issues with an empty path) and
    [fieldErrors] (grouped by the first path segment). The default
    messages are those of zod 3. *)
Module Zod.

Inductive PathSeg : Type :=
| Key (name : string)
| Index (i : nat).

Record ZodIssue : Type := mkIssue { path : list PathSeg; message : string }.

(** A [ZodError] is its list of issues. *)
Definition ZodError : Type := list ZodIssue.

(** [{ success: true, data } | { success: false, error }] *)
Inductive SafeParseReturn (A : Type) : Type :=
| Success (data : A)
| Failure (error : ZodError).
Arguments Success {A} data.
Arguments Failure {A} error.

(** A parse succeeds exactly when it raised no issue. *)
Definition conclude {A : Type} (issues : list ZodIssue) (data : A)
    : SafeParseReturn A :=
  match issues with
  | [] => Success data
  | _ :: _ => Failure issues
  end.

Definition PathSeg_eqb (a b : PathSeg) : bool :=
  match a, b with
  | Key x, Key y => String.eqb x y
  | Index i, Index j => Nat.eqb i j
  | _, _ => false
  end.

(** [fieldErrors[k] = fieldErrors[k] || []; fieldErrors[k].push(msg)] *)
Fixpoint push_field (k : PathSeg) (msg : string)
    (fields : list (PathSeg * list string)) : list (PathSeg * list string) :=
  match fields with
  | [] => [(k, [msg])]
  | (k', msgs) :: rest =>
      if PathSeg_eqb k k' then (k', msgs ++ [msg]) :: rest
      else (k', msgs) :: push_field k msg rest
  end.

Record Flattened : Type :=
  mkFlattened { formErrors : list string;
                fieldErrors : list (PathSeg * list string) }.

(** [error.flatten()]: one pass over the issues, in order. *)
Definition flatten (error : ZodError) : Flattened :=
  fold_left
    (fun acc sub =>
       match path sub with
       | k :: _ =>
           {| formErrors := formErrors acc;
              fieldErrors := push_field k (message sub) (fieldErrors acc) |}
       | [] =>
           {| formErrors := formErrors acc ++ [message sub];
              fieldErrors := fieldErrors acc |}
       end)
    error {| formErrors := []; fieldErrors := [] |}.

(** ** Strings *)

(** The white space [String.prototype.trim] strips, among the code units
    below 256: TAB, LF, VT, FF, CR, SPACE and NO-BREAK SPACE. *)
Definition is_space (c : ascii) : bool :=
  match N_of_ascii c with
  | 9%N | 10%N | 11%N | 12%N | 13%N | 32%N | 160%N => true
  | _ => false
  end.

Fixpoint trimStart (s : string) : string :=
  match s with
  | EmptyString => EmptyString
  | String c rest => if is_space c then trimStart rest else s
  end.

Fixpoint trimEnd (s : string) : string :=
  match s with
  | EmptyString => EmptyString
  | String c rest =>
      match trimEnd rest with
      | EmptyString => if is_space c then EmptyString else String c EmptyString
      | kept => String c kept
      end
  end.

Definition trim (s : string) : string := trimEnd (trimStart s).

(** [.min(n, msg)] and [.max(n, msg)] of a string schema, at path [p]. *)
Definition min_length (n : nat) (msg : string) (p : list PathSeg) (s : string)
    : list ZodIssue :=
  if Nat.ltb (String.length s) n then [mkIssue p msg] else [].

Definition max_length (n : nat) (msg : string) (p : list PathSeg) (s : string)
    : list ZodIssue :=
  if Nat.ltb n (String.length s) then [mkIssue p msg] else [].

(** The formats zod recognises with regular expressions of its own, which
    differ from one release to the next: [.uuid()] and [.email()]. *)
Record Formats : Type :=
  mkFormats { is_uuid : string -> bool; is_email : string -> bool }.

Definition check_uuid (fmt : Formats) (msg : string) (p : list PathSeg) (s : string)
    : list ZodIssue :=
  if is_uuid fmt s then [] else [mkIssue p msg].

Definition check_email (fmt : Formats) (msg : string) (p : list PathSeg) (s : string)
    : list ZodIssue :=
  if is_email fmt s then [] else [mkIssue p msg].

(** ** Numbers *)

(** A JavaScript number as far as [z.number().int().min(0)] can tell
    numbers apart: an integer value, [NaN], or a value that
    [Number.isInteger] rejects (a fraction or an infinity), of which only
    the sign matters. *)
Inductive number : Type :=
| Int (z : Z)
| NonInteger (negative : bool)
| NaN.

End Zod.

(* ===================================================================== *)
(** * The outside world                                                   *)
(* ===================================================================== *)

(** Everything an action asks of its environment: the clock, the hosted
    backend (session lookup, sign-in, and the [polls] and [votes] tables),
    the server log and the cache invalidation signal. A request is an
    [Event] indexed by the type of its answer. An action is a finite tree
    of requests ([Prog]); the environment answers them one at a time. *)
Module World.

(** The error object of a backend answer. *)
Record BackendError : Type := mkBackendError { code : string; message : string }.

(** The session user; the actions read its [id] only. *)
Record User : Type := mkUser { id : string }.

(** A row of [polls] as [select("*")] returns it. *)
Record PollRow : Type :=
  mkPollRow { row_id : string; row_user_id : string; row_question : string;
              row_options : list string; row_created_at : string }.

(** [{ data, error }] of a table query. *)
Record Response (A : Type) : Type :=
  mkResponse { data : option A; error : option BackendError }.
Arguments mkResponse {A} data error.
Arguments data {A} r.
Arguments error {A} r.

(** [{ data: { user }, error }] of [supabase.auth.getUser()]. *)
Record UserResponse : Type :=
  mkUserResponse { user : option User; userError : option BackendError }.

Inductive Event : Type -> Type :=
(** [Date.now()] *)
| DateNow : Event Z
(** [supabase.auth.getUser()] *)
| AuthGetUser : Event UserResponse
(** [supabase.auth.signInWithPassword({ email, password })] *)
| AuthSignInWithPassword (email password : string) : Event (option BackendError)
(** [supabase.auth.signUp({ email, password, options: { data: { name } } })] *)
| AuthSignUp (email password name : string) : Event (option BackendError)
(** [supabase.auth.signOut()] *)
| AuthSignOut : Event (option BackendError)
(** [from("polls").insert([{ user_id, question, options }])] *)
| PollsInsert (user_id question : string) (options : list string)
    : Event (option BackendError)
(** [from("polls").select("*").eq("user_id", id).order("created_at", desc)] *)
| PollsSelectByUser (user_id : string) : Event (Response (list PollRow))
(** [from("polls").select("*").eq("id", id).single()] *)
| PollsSelectById (id : string) : Event (Response PollRow)
(** [from("polls").select("options").eq("id", id).single()] *)
| PollsSelectOptions (id : string) : Event (Response (list string))
(** [from("polls").select("user_id").eq("id", id).single()] *)
| PollsSelectOwner (id : string) : Event (Response string)
(** [from("polls").delete().eq("id", id).eq("user_id", user_id)] *)
| PollsDelete (id user_id : string) : Event (option BackendError)
(** [from("polls").update({ question, options }).eq("id", id).eq("user_id", user_id)] *)
| PollsUpdate (id user_id question : string) (options : list string)
    : Event (option BackendError)
(** [from("votes").select("id").eq("poll_id", p).eq("user_id", u).single()] *)
| VotesSelectId (poll_id user_id : string) : Event (Response string)
(** [from("votes").insert([{ poll_id, user_id, option_index }])] *)
| VotesInsert (poll_id : string) (user_id : option string) (option_index : Z)
    : Event (option BackendError)
(** [console.error(label, error)] *)
| ConsoleError (label : string) (detail : option BackendError) : Event unit
(** [revalidatePath(path)] *)
| RevalidatePath (path : string) : Event unit.

(** A request together with the answer it got. *)
Inductive Obs : Type :=
| Observed {X : Type} (e : Event X) (x : X).

Inductive Prog (R : Type) : Type :=
| Ret (r : R)
| Vis {X : Type} (e : Event X) (k : X -> Prog R).
Arguments Ret {R} r.
Arguments Vis {R X} e k.

Fixpoint bind {A B : Type} (p : Prog A) (f : A -> Prog B) : Prog B :=
  match p with
  | Ret a => f a
  | Vis e k => Vis e (fun x => bind (k x) f)
  end.

(** An environment answers a request knowing everything that was asked
    and answered before, so it can stand for any backend, with any
    state. *)
Definition Env : Type := forall X : Type, list Obs -> Event X -> X.

(** Run a program against an environment; the history, oldest exchange
    first, is returned with the result. *)
Fixpoint run {R : Type} (env : Env) (history : list Obs) (p : Prog R)
    : R * list Obs :=
  match p with
  | Ret r => (r, history)
  | Vis e k =>
      let x := env _ history e in
      run env (history ++ [Observed e x]) (k x)
  end.

(** ** Actions: programs that also thread the module's [rateLimit] table *)

Definition Action (A : Type) : Type :=
  gmap string RateLimit.Entry ->
  Prog (A * gmap string RateLimit.Entry).

Definition Action_ret {A : Type} (a : A) : Action A :=
  fun rateLimit => Ret (a, rateLimit).

Definition Action_bind {A B : Type} (f : A -> Action B) (m : Action A)
    : Action B :=
  fun rateLimit => bind (m rateLimit) (fun '(a, rateLimit1) => f a rateLimit1).

#[global] Instance Action_mret : MRet Action := @Action_ret.
#[global] Instance Action_mbind : MBind Action := @Action_bind.

(** [await] of one request. *)
Definition perform {X : Type} (e : Event X) : Action X :=
  fun rateLimit => Vis e (fun x => Ret (x, rateLimit)).

(** [checkRateLimit(key)]: read the clock, then consult and update the
    table. *)
Definition checkRateLimit (key : string) : Action bool :=
  fun rateLimit =>
    Vis DateNow (fun now => Ret (RateLimit.checkRateLimit_at now key rateLimit)).

(** What a call of an action comes to: the value it returns, or the
    [ZodError] that [schema.parse] threw and nothing caught. *)
Inductive Outcome (A : Type) : Type :=
| Returned (value : A)
| Thrown (error : Zod.ZodError).
Arguments Returned {A} value.
Arguments Thrown {A} error.

(** The [error] field of a result object: [null], [undefined] or a string. *)
Inductive ErrorField : Type :=
| Null
| Undefined
| Message (text : string).

(** [formErrors[0]] *)
Definition first_of (messages : list string) : ErrorField :=
  match messages with
  | [] => Undefined
  | m :: _ => Message m
  end.

End World.

(** [{ error }], the result object of the actions of both modules. *)
Module Result.
Import World.

Record ActionResult : Type := mkResult { error : ErrorField }.

End Result.

(* ===================================================================== *)
(** * app/lib/actions/auth-actions.ts                                     *)
(* ===================================================================== *)

(** Every action starts with [await createClient()], which builds the
    backend client and asks nothing of the backend; it leaves no trace
    here. [getCurrentUser] and [getSession] only forward a session lookup
    and are left out. *)
Module AuthActions.
Import Zod World Result.

Record LoginFormData : Type := mkLogin { email : string; password : string }.

(** The fields [name], [email] and [password] of the registration form. *)
Record RegisterFormData : Type :=
  mkRegister { name : string; reg_email : string; reg_password : string }.

Section Schemas.
Context (fmt : Formats).

(** [z.object({ email: z.string().email(..), password: z.string().min(6, ..) })] *)
Definition loginSchema (data : LoginFormData) : SafeParseReturn LoginFormData :=
  conclude
    (check_email fmt "Invalid email address" [Key "email"] (email data)
     ++ min_length 6 "Password must be at least 6 characters long"
          [Key "password"] (password data))
    data.

(** [z.object({ name: z.string().min(2, ..), email: .., password: .. })] *)
Definition registerSchema (data : RegisterFormData)
    : SafeParseReturn RegisterFormData :=
  conclude
    (min_length 2 "Name must be at least 2 characters long" [Key "name"] (name data)
     ++ check_email fmt "Invalid email address" [Key "email"] (reg_email data)
     ++ min_length 6 "Password must be at least 6 characters long"
          [Key "password"] (reg_password data))
    data.

Definition login (data : LoginFormData) : Action (Outcome ActionResult) :=
  allowed ← checkRateLimit ("login-" +:+ email data);
  if negb allowed then
    mret (Returned {| error := Message "Too many login attempts. Please try again later." |})
  else
    match loginSchema data with
    | Failure validationError =>
        mret (Returned {| error := first_of (formErrors (flatten validationError)) |})
    | Success validatedData =>
        signInError ← perform (AuthSignInWithPassword (email validatedData)
                                                      (password validatedData));
        match signInError with
        | Some _ =>
            mret (Returned {| error := Message "Login failed. Please check your credentials." |})
        | None => mret (Returned {| error := Null |})
        end
    end.

Definition register (data : RegisterFormData) : Action (Outcome ActionResult) :=
  allowed ← checkRateLimit ("register-" +:+ reg_email data);
  if negb allowed then
    mret (Returned {| error := Message "Too many registration attempts. Please try again later." |})
  else
    match registerSchema data with
    | Failure validationError =>
        mret (Returned {| error := first_of (formErrors (flatten validationError)) |})
    | Success validatedData =>
        signUpError ← perform (AuthSignUp (reg_email validatedData)
                                          (reg_password validatedData)
                                          (name validatedData));
        match signUpError with
        | Some _ => mret (Returned {| error := Message "Registration failed" |})
        | None => mret (Returned {| error := Null |})
        end
    end.

End Schemas.

Definition logout : Action (Outcome ActionResult) :=
  signOutError ← perform AuthSignOut;
  match signOutError with
  | Some e =>
      _ ← perform (ConsoleError "Logout error:" (Some e));
      mret (Returned {| error := Message "Logout failed. Please try again." |})
  | None => mret (Returned {| error := Null |})
  end.

End AuthActions.

(* ===================================================================== *)
(** * The poll actions                                                    *)
(* ===================================================================== *)

Module PollActions.
Import Zod World Result.

(** [{ poll, error }] of [getPollById] and [{ polls, error }] of
    [getUserPolls]. *)
Record PollResult : Type :=
  mkPollResult { poll : option PollRow; poll_error : ErrorField }.

Record PollsResult : Type :=
  mkPollsResult { polls : list PollRow; polls_error : ErrorField }.

(** ** Form data *)

(** A [FormDataEntryValue] is a string or a [File]. *)
Inductive FormDataEntryValue : Type :=
| FormString (s : string)
| FormFile.

(** A [FormData] is its list of entries, in order. *)
Definition FormData : Type := list (string * FormDataEntryValue).

(** [formData.get(name)]: the first value under [name], or [null]. *)
Fixpoint get (name : string) (formData : FormData) : option FormDataEntryValue :=
  match formData with
  | [] => None
  | (n, v) :: rest => if String.eqb n name then Some v else get name rest
  end.

(** [formData.getAll(name)] *)
Fixpoint getAll (name : string) (formData : FormData) : list FormDataEntryValue :=
  match formData with
  | [] => []
  | (n, v) :: rest =>
      if String.eqb n name then v :: getAll name rest else getAll name rest
  end.

(** [Boolean(v)]: only the empty string is falsy. *)
Definition Boolean (v : FormDataEntryValue) : bool :=
  match v with
  | FormString EmptyString => false
  | _ => true
  end.

(** ** Schemas *)

(** What [pollSchema] is given and what it yields. *)
Record PollInput : Type :=
  mkPollInput { raw_question : option FormDataEntryValue;
                raw_options : list FormDataEntryValue }.

Record PollData : Type := mkPollData { question : string; options : list string }.

Record VoteInput : Type := mkVoteInput { raw_pollId : string; raw_optionIndex : number }.

Record VoteData : Type := mkVoteData { pollId : string; optionIndex : Z }.

(** [question: z.string().min(5, ..).max(255, ..).trim()]: the checks run
    in the order written, so both lengths are those of the untrimmed
    string. *)
Definition question_issues (v : option FormDataEntryValue) : list ZodIssue :=
  match v with
  | Some (FormString s) =>
      min_length 5 "Question must be at least 5 characters long" [Key "question"] s
      ++ max_length 255 "Question cannot exceed 255 characters" [Key "question"] s
  | Some FormFile => [mkIssue [Key "question"] "Expected string, received object"]
  | None => [mkIssue [Key "question"] "Expected string, received null"]
  end.

(** One element of [options]: [z.string().min(1, ..).max(100, ..).trim()]. *)
Definition option_issues (i : nat) (v : FormDataEntryValue) : list ZodIssue :=
  match v with
  | FormString s =>
      min_length 1 "Option cannot be empty" [Key "options"; Index i] s
      ++ max_length 100 "Option cannot exceed 100 characters" [Key "options"; Index i] s
  | FormFile => [mkIssue [Key "options"; Index i] "Expected string, received object"]
  end.

Fixpoint options_issues (i : nat) (vs : list FormDataEntryValue) : list ZodIssue :=
  match vs with
  | [] => []
  | v :: rest => option_issues i v ++ options_issues (S i) rest
  end.

(** The string a valid entry stands for, trimmed. *)
Definition trimmed (v : FormDataEntryValue) : string :=
  match v with
  | FormString s => trim s
  | FormFile => EmptyString
  end.

(** [pollSchema]: the array's own [.min(2, ..)] is checked before its
    elements. *)
Definition pollSchema (input : PollInput) : SafeParseReturn PollData :=
  conclude
    (question_issues (raw_question input)
     ++ (if Nat.ltb (length (raw_options input)) 2
         then [mkIssue [Key "options"] "Please provide at least two options"]
         else [])
     ++ options_issues 0 (raw_options input))
    {| question := match raw_question input with
                   | Some v => trimmed v
                   | None => EmptyString
                   end;
       options := map trimmed (raw_options input) |}.

Section Schemas.
Context (fmt : Formats).

(** [optionIndex: z.number().int().min(0, ..)] *)
Definition optionIndex_issues (n : number) : list ZodIssue :=
  match n with
  | Int z =>
      if z <? 0 then [mkIssue [Key "optionIndex"] "Option index cannot be negative"]
      else []
  | NonInteger negative =>
      mkIssue [Key "optionIndex"] "Expected integer, received float"
      :: (if negative
          then [mkIssue [Key "optionIndex"] "Option index cannot be negative"]
          else [])
  | NaN => [mkIssue [Key "optionIndex"] "Expected number, received nan"]
  end.

(** [voteSchema] *)
Definition voteSchema (input : VoteInput) : SafeParseReturn VoteData :=
  conclude
    (check_uuid fmt "Invalid poll ID format" [Key "pollId"] (raw_pollId input)
     ++ optionIndex_issues (raw_optionIndex input))
    {| pollId := raw_pollId input;
       optionIndex := match raw_optionIndex input with
                      | Int z => z
                      | _ => 0
                      end |}.

(** [idSchema = z.string().uuid("Invalid ID format")] *)
Definition idSchema (id : string) : SafeParseReturn string :=
  conclude (check_uuid fmt "Invalid ID format" [] id) id.

(** ** Actions *)

(** [user ? `${action}-${user.id}` : `${action}-anonymous`], the
    [rateLimitKey] each action builds. *)
Definition rateLimitKey (action : string) (user : option User) : string :=
  match user with
  | Some u => action +:+ "-" +:+ id u
  | None => action +:+ "-anonymous"
  end.

(** CREATE POLL. [pollSchema.parse] throws where [safeParse] would return
    a failure; nothing in the action catches it. *)
Definition createPoll (formData : FormData) : Action (Outcome ActionResult) :=
  auth ← perform AuthGetUser;
  allowed ← checkRateLimit (rateLimitKey "create-poll" (user auth));
  if negb allowed then
    mret (Returned {| error := Message "Too many poll creation attempts. Please try again later." |})
  else
    match pollSchema {| raw_question := get "question" formData;
                        raw_options := List.filter Boolean (getAll "options" formData) |} with
    | Failure zodError => mret (Thrown zodError)
    | Success parsed =>
        session ← perform AuthGetUser;
        match userError session with
        | Some e => mret (Returned {| error := Message (message e) |})
        | None =>
            match user session with
            | None =>
                mret (Returned {| error := Message "You must be logged in to create a poll." |})
            | Some sessionUser =>
                insertError ← perform (PollsInsert (id sessionUser)
                                                   (question parsed) (options parsed));
                match insertError with
                | Some e =>
                    _ ← perform (ConsoleError "Error creating poll:" (Some e));
                    mret (Returned {| error := Message "Failed to create poll. Please try again." |})
                | None =>
                    _ ← perform (RevalidatePath "/polls");
                    mret (Returned {| error := Null |})
                end
            end
        end
    end.

(** GET USER POLLS *)
Definition getUserPolls : Action PollsResult :=
  auth ← perform AuthGetUser;
  match user auth with
  | None => mret {| polls := []; polls_error := Message "Not authenticated" |}
  | Some u =>
      rows ← perform (PollsSelectByUser (id u));
      match World.error rows with
      | Some e =>
          _ ← perform (ConsoleError "Error getting user polls:" (Some e));
          mret {| polls := []; polls_error := Message "Failed to retrieve user polls." |}
      | None =>
          mret {| polls := match data rows with Some l => l | None => [] end;
                  polls_error := Null |}
      end
  end.

(** GET POLL BY ID *)
Definition getPollById (id : string) : Action PollResult :=
  match idSchema id with
  | Failure validationError =>
      mret {| poll := None;
              poll_error := first_of (formErrors (flatten validationError)) |}
  | Success validatedId =>
      row ← perform (PollsSelectById validatedId);
      match World.error row with
      | Some e =>
          _ ← perform (ConsoleError "Error getting poll by ID:" (Some e));
          mret {| poll := None; poll_error := Message "Failed to retrieve poll." |}
      | None => mret {| poll := data row; poll_error := Null |}
      end
  end.

(** The range test of [submitVote]:
    [validatedOptionIndex < 0 || validatedOptionIndex >= pollData.options.length]. *)
Definition out_of_range (validatedOptionIndex : Z) (pollOptions : list string) : bool :=
  (validatedOptionIndex <? 0)
  || (validatedOptionIndex >=? Z.of_nat (length pollOptions)).

(** The tail of [submitVote]: the insert and what is returned after it. *)
Definition submitVote_insert (validatedPollId : string) (sessionUser : option User)
    (validatedOptionIndex : Z) : Action (Outcome ActionResult) :=
  insertError ← perform (VotesInsert validatedPollId
                                     (option_map World.id sessionUser)
                                     validatedOptionIndex);
  match insertError with
  | Some e =>
      _ ← perform (ConsoleError "Error submitting vote:" (Some e));
      mret (Returned {| error := Message "Failed to submit vote. Please try again." |})
  | None => mret (Returned {| error := Null |})
  end.

(** SUBMIT VOTE *)
Definition submitVote (pollId_ : string) (optionIndex_ : number)
    : Action (Outcome ActionResult) :=
  match voteSchema {| raw_pollId := pollId_; raw_optionIndex := optionIndex_ |} with
  | Failure validationError =>
      mret (Returned {| error := first_of (formErrors (flatten validationError)) |})
  | Success validatedVoteData =>
      let validatedPollId := pollId validatedVoteData in
      let validatedOptionIndex := optionIndex validatedVoteData in
      auth ← perform AuthGetUser;
      allowed ← checkRateLimit (rateLimitKey "submit-vote" (user auth));
      if negb allowed then
        mret (Returned {| error := Message "Too many voting attempts. Please try again later." |})
      else
        pollRow ← perform (PollsSelectOptions validatedPollId);
        match World.error pollRow, data pollRow with
        | None, Some pollOptions =>
            if out_of_range validatedOptionIndex pollOptions then
              mret (Returned {| error := Message "Invalid option selected." |})
            else
              session ← perform AuthGetUser;
              match user session with
              | Some sessionUser =>
                  (* Prevent duplicate votes for authenticated users *)
                  existing ← perform (VotesSelectId validatedPollId (id sessionUser));
                  match data existing with
                  | Some _ =>
                      mret (Returned {| error := Message "You have already voted on this poll." |})
                  | None =>
                      match World.error existing with
                      | Some e =>
                          (* PGRST116 is 'no rows found' *)
                          if negb (String.eqb (code e) "PGRST116") then
                            _ ← perform (ConsoleError "Error checking for existing vote:" (Some e));
                            mret (Returned {| error := Message "Failed to check for existing vote." |})
                          else
                            submitVote_insert validatedPollId (Some sessionUser)
                                              validatedOptionIndex
                      | None =>
                          submitVote_insert validatedPollId (Some sessionUser)
                                            validatedOptionIndex
                      end
                  end
              | None => submitVote_insert validatedPollId None validatedOptionIndex
              end
        | pollError, _ =>
            _ ← perform (ConsoleError "Error fetching poll for voting:" pollError);
            mret (Returned {| error := Message "Poll not found or failed to retrieve poll options." |})
        end
  end.

(** DELETE POLL *)
Definition deletePoll (id_ : string) : Action (Outcome ActionResult) :=
  match idSchema id_ with
  | Failure validationError =>
      mret (Returned {| error := first_of (formErrors (flatten validationError)) |})
  | Success validatedId =>
      auth ← perform AuthGetUser;
      allowed ← checkRateLimit (rateLimitKey "delete-poll" (user auth));
      if negb allowed then
        mret (Returned {| error := Message "Too many poll deletion attempts. Please try again later." |})
      else
        match userError auth with
        | Some e => mret (Returned {| error := Message (message e) |})
        | None =>
            match user auth with
            | None =>
                mret (Returned {| error := Message "You must be logged in to delete a poll." |})
            | Some u =>
                (* Check if the user is the owner of the poll *)
                owner ← perform (PollsSelectOwner validatedId);
                match World.error owner, data owner with
                | None, Some poll_user_id =>
                    if negb (String.eqb poll_user_id (id u)) then
                      mret (Returned {| error := Message "You are not authorized to delete this poll." |})
                    else
                      deleteError ← perform (PollsDelete validatedId (id u));
                      match deleteError with
                      | Some e =>
                          _ ← perform (ConsoleError "Error deleting poll:" (Some e));
                          mret (Returned {| error := Message "Failed to delete poll. Please try again." |})
                      | None =>
                          _ ← perform (RevalidatePath "/polls");
                          mret (Returned {| error := Null |})
                      end
                | fetchPollError, _ =>
                    _ ← perform (ConsoleError "Error fetching poll for deletion:" fetchPollError);
                    mret (Returned {| error := Message "Poll not found or failed to verify ownership." |})
                end
            end
        end
  end.

(** UPDATE POLL *)
Definition updatePoll (pollId_ : string) (formData : FormData)
    : Action (Outcome ActionResult) :=
  match idSchema pollId_ with
  | Failure validationError =>
      mret (Returned {| error := first_of (formErrors (flatten validationError)) |})
  | Success validatedPollId =>
      auth ← perform AuthGetUser;
      allowed ← checkRateLimit (rateLimitKey "update-poll" (user auth));
      if negb allowed then
        mret (Returned {| error := Message "Too many poll update attempts. Please try again later." |})
      else
        match pollSchema {| raw_question := get "question" formData;
                            raw_options := List.filter Boolean (getAll "options" formData) |} with
        | Failure zodError => mret (Thrown zodError)
        | Success parsed =>
            session ← perform AuthGetUser;
            match userError session with
            | Some e => mret (Returned {| error := Message (message e) |})
            | None =>
                match user session with
                | None =>
                    mret (Returned {| error := Message "You must be logged in to update a poll." |})
                | Some sessionUser =>
                    (* Only allow updating polls owned by the user *)
                    updateError ← perform (PollsUpdate validatedPollId (id sessionUser)
                                                       (question parsed) (options parsed));
                    match updateError with
                    | Some e =>
                        _ ← perform (ConsoleError "Error updating poll:" (Some e));
                        mret (Returned {| error := Message "Failed to update poll. Please try again." |})
                    | None => mret (Returned {| error := Null |})
                    end
                end
            end
        end
  end.

End Schemas.

End PollActions.

(* ===================================================================== *)
(** * Vocabulary of the statements                                        *)
(* ===================================================================== *)

Module Spec.
Import Zod World Result RateLimit.

(** ** Sequences of calls to the limiter *)

(** A finite sequence of calls, each with its key and the clock reading
    it saw; the answers are returned in call order. *)
Fixpoint run_calls (calls : list (string * Z)) (rateLimit : gmap string Entry)
    : list bool * gmap string Entry :=
  match calls with
  | [] => ([], rateLimit)
  | (key, now) :: rest =>
      let '(ok, rateLimit1) := checkRateLimit_at now key rateLimit in
      let '(oks, rateLimit2) := run_calls rest rateLimit1 in
      (ok :: oks, rateLimit2)
  end.

(** The answers given to the calls made under [key], in order. *)
Fixpoint answers_for (key : string) (calls : list (string * Z))
    (rateLimit : gmap string Entry) : list bool :=
  match calls with
  | [] => []
  | (k, now) :: rest =>
      let '(ok, rateLimit1) := checkRateLimit_at now k rateLimit in
      if String.eqb k key then ok :: answers_for key rest rateLimit1
      else answers_for key rest rateLimit1
  end.

(** The clock readings of the calls made under [key]. *)
Definition times_for (key : string) (calls : list (string * Z)) : list Z :=
  map snd (List.filter (fun c => String.eqb (fst c) key) calls).

(** A call at [now] opens a fresh window for [key]: there is no entry, or
    the stored window is older than [RESET_INTERVAL]. *)
Definition opens_window (now : Z) (key : string)
    (rateLimit : gmap string Entry) : Prop :=
  match rateLimit !! key with
  | None => True
  | Some entry => now - lastReset entry > RESET_INTERVAL
  end.

(** A clock reading that still falls in the window opened at [start]. *)
Definition in_window (start now : Z) : Prop := now - start <= RESET_INTERVAL.

(** The bound every stored counter obeys. *)
Definition count_in_range (e : Entry) : Prop := 1 <= count e <= MAX_ATTEMPTS.

(** What the table holds for [key] after [n] calls (the opening one
    included) in the window opened at [start]. *)
Definition window_state (key : string) (start : Z) (n : nat)
    (rateLimit : gmap string Entry) : Prop :=
  rateLimit !! key
    = Some {| count := Z.min (Z.of_nat n) MAX_ATTEMPTS; lastReset := start |}.

(** [Q] holds of whatever the program returns, whatever it is answered. *)
Fixpoint always {R : Type} (Q : R -> Prop) (p : Prog R) : Prop :=
  match p with
  | Ret r => Q r
  | Vis e k => forall x, always Q (k x)
  end.

(** The clock reading with which [checkRateLimit] starts: the gate. *)
Definition is_gate (o : Obs) : bool :=
  match o with
  | Observed e _ => match e with DateNow => true | _ => false end
  end.

(** Sign-in, sign-up and every operation on the [polls] and [votes]
    tables. *)
Definition is_store_op (o : Obs) : bool :=
  match o with
  | Observed e _ =>
      match e with
      | AuthSignInWithPassword _ _ | AuthSignUp _ _ _
      | PollsInsert _ _ _ | PollsSelectByUser _ | PollsSelectById _
      | PollsSelectOptions _ | PollsSelectOwner _ | PollsDelete _ _
      | PollsUpdate _ _ _ _ | VotesSelectId _ _ | VotesInsert _ _ _ => true
      | _ => false
      end
  end.

(** A request that changes a table row. *)
Definition is_mutation (o : Obs) : bool :=
  match o with
  | Observed e _ =>
      match e with
      | PollsInsert _ _ _ | PollsDelete _ _ | PollsUpdate _ _ _ _
      | VotesInsert _ _ _ => true
      | _ => false
      end
  end.

(** Any request to the hosted backend, the session lookup included. *)
Definition is_backend_call (o : Obs) : bool :=
  match o with
  | Observed e _ =>
      match e with
      | DateNow | ConsoleError _ _ | RevalidatePath _ => false
      | _ => true
      end
  end.

(** No store operation comes before the gate. *)
Fixpoint gate_before_store (trace : list Obs) : bool :=
  match trace with
  | [] => true
  | o :: rest =>
      if is_gate o then true else negb (is_store_op o) && gate_before_store rest
  end.

(** The gate is the very first thing the action asks of the world. *)
Definition gate_first {A : Type} (env : Env) (act : Action A)
    (rateLimit : gmap string Entry) : Prop :=
  match snd (run env [] (act rateLimit)) with
  | o :: _ => is_gate o = true
  | [] => False
  end.

(** The exchange that opens every poll action: the session lookup, then
    the clock reading of the gate. *)
Definition session_seen (env : Env) : UserResponse := env _ [] AuthGetUser.

Definition gate_time (env : Env) : Z :=
  env _ [Observed AuthGetUser (session_seen env)] DateNow.

Definition poll_gate (env : Env) (action : string)
    (rateLimit : gmap string Entry) : bool * gmap string Entry :=
  checkRateLimit_at (gate_time env)
    (PollActions.rateLimitKey action (user (session_seen env))) rateLimit.

Definition poll_gate_trace (env : Env) : list Obs :=
  [Observed AuthGetUser (session_seen env); Observed DateNow (gate_time env)].

(** ** Sample data, to run the actions on *)

Definition is_hex (c : ascii) : bool :=
  let n := N_of_ascii c in
  ((48 <=? n) && (n <=? 57) || (65 <=? n) && (n <=? 70)
   || (97 <=? n) && (n <=? 102))%N.

(** Eight, four, four, four and twelve hexadecimal digits, with hyphens
    in between. *)
Fixpoint hex_groups (groups : list nat) (left : nat) (s : string) : bool :=
  match s with
  | EmptyString =>
      match groups, left with
      | [], O => true
      | _, _ => false
      end
  | String c rest =>
      match left with
      | S left' => is_hex c && hex_groups groups left' rest
      | O =>
          match groups with
          | g :: groups' => Ascii.eqb c "-"%char && hex_groups groups' g rest
          | [] => false
          end
      end
  end.

Fixpoint has_at (seen_local : bool) (s : string) : bool :=
  match s with
  | EmptyString => false
  | String c rest =>
      if Ascii.eqb c "@"%char then
        seen_local && negb (String.eqb rest EmptyString)
      else has_at true rest
  end.

(** A stand-in for the formats of the library: the 8-4-4-4-12 shape of a
    UUID, and an address with something on both sides of its first [@]. *)
Definition sample_formats : Formats :=
  {| is_uuid := hex_groups [4; 4; 4; 12]%nat 8;
     is_email := has_at false |}.

(** A backend that gives the same answers whatever came before. *)
Record Answers : Type :=
  mkAnswers { clock : Z;
              session : UserResponse;
              auth_error : option BackendError;
              poll_options : Response (list string);
              poll_owner : Response string;
              existing_vote : Response string;
              poll_row : Response PollRow;
              user_polls : Response (list PollRow);
              write_error : option BackendError }.

Definition answering (a : Answers) : Env :=
  fun X _ e =>
    match e in Event X return X with
    | DateNow => clock a
    | AuthGetUser => session a
    | AuthSignInWithPassword _ _ => auth_error a
    | AuthSignUp _ _ _ => auth_error a
    | AuthSignOut => auth_error a
    | PollsInsert _ _ _ => write_error a
    | PollsSelectByUser _ => user_polls a
    | PollsSelectById _ => poll_row a
    | PollsSelectOptions _ => poll_options a
    | PollsSelectOwner _ => poll_owner a
    | PollsDelete _ _ => write_error a
    | PollsUpdate _ _ _ _ => write_error a
    | VotesSelectId _ _ => existing_vote a
    | VotesInsert _ _ _ => write_error a
    | ConsoleError _ _ => tt
    | RevalidatePath _ => tt
    end.

Definition no_rows : BackendError :=
  {| code := "PGRST116";
     message := "JSON object requested, multiple (or no) rows returned" |}.

(** Ann is signed in, owns the sample poll (two options) and has not
    voted on it; the backend is healthy. *)
Definition sample_poll_id : string := "3f2504e0-4f89-11d3-9a0c-0305e82c3301".

Definition ann_session : UserResponse :=
  {| user := Some {| id := "ann" |}; userError := None |}.

Definition healthy : Answers :=
  {| clock := 1000;
     session := ann_session;
     auth_error := None;
     poll_options := {| data := Some ["Red"; "Blue"]; World.error := None |};
     poll_owner := {| data := Some "ann"; World.error := None |};
     existing_vote := {| data := None; World.error := Some no_rows |};
     poll_row := {| data := None; World.error := Some no_rows |};
     user_polls := {| data := Some []; World.error := None |};
     write_error := None |}.

(** The same backend once Ann has cast her vote. *)
Definition ann_has_voted : Answers :=
  {| clock := clock healthy;
     session := session healthy;
     auth_error := auth_error healthy;
     poll_options := poll_options healthy;
     poll_owner := poll_owner healthy;
     existing_vote := {| data := Some "vote-1"; World.error := None |};
     poll_row := poll_row healthy;
     user_polls := user_polls healthy;
     write_error := write_error healthy |}.

(** The same backend when the session token has expired: the session
    lookup reports an error and no user. *)
Definition expired_token : BackendError :=
  {| code := "bad_jwt";
     message := "invalid JWT: unable to parse or verify signature, token is expired" |}.

Definition session_expired : Answers :=
  {| clock := clock healthy;
     session := {| user := None; userError := Some expired_token |};
     auth_error := auth_error healthy;
     poll_options := poll_options healthy;
     poll_owner := poll_owner healthy;
     existing_vote := existing_vote healthy;
     poll_row := poll_row healthy;
     user_polls := user_polls healthy;
     write_error := write_error healthy |}.

(** A poll form with the given question and the options Red and Blue. *)
Definition poll_form (q : string) : PollActions.FormData :=
  [("question", PollActions.FormString q);
   ("options", PollActions.FormString "Red");
   ("options", PollActions.FormString "Blue")].

(** A table in which [key] has used up its attempts in the window opened
    at time 0. *)
Definition exhausted (key : string) : gmap string Entry :=
  {[ key := {| count := MAX_ATTEMPTS; lastReset := 0 |} ]}.

End Spec.

(* ===================================================================== *)
(** * The rest of the two modules, and more vocabulary                    *)
(* ===================================================================== *)

Module Coverage.
Import Zod World Result RateLimit PollActions Spec.

(** [getCurrentUser] of auth-actions.ts: [data.user] of the session
    lookup. ([getSession] asks for the session object, which no other
    action reads.) *)
Definition getCurrentUser : Action (option User) :=
  auth ← perform AuthGetUser;
  mret (user auth).

(** Several logins in a row, as successive calls of the action on the
    module's table. *)
Fixpoint login_all (fmt : Formats) (forms : list AuthActions.LoginFormData)
    : Action (list (Outcome ActionResult)) :=
  match forms with
  | [] => mret []
  | form :: rest =>
      outcome ← AuthActions.login fmt form;
      outcomes ← login_all fmt rest;
      mret (outcome :: outcomes)
  end.

(** [Q] holds of the result and of the history at every way the program
    can end, whatever it is answered. *)
Fixpoint throughout {R : Type} (Q : R -> list Obs -> Prop)
    (history : list Obs) (p : Prog R) : Prop :=
  match p with
  | Ret r => Q r history
  | Vis e k => forall x, throughout Q (history ++ [Observed e x]) (k x)
  end.

(** The ids of the users the session lookups of a trace reported. *)
Definition session_id (o : Obs) : list string :=
  match o with
  | Observed e x =>
      match e in Event X return X -> list string with
      | AuthGetUser =>
          fun r => match user r with Some u => [id u] | None => [] end
      | _ => fun _ => []
      end x
  end.

Definition session_ids (trace : list Obs) : list string :=
  flat_map session_id trace.



(** The ownership fetch of [deletePoll]. *)
Definition is_owner_fetch (o : Obs) : bool :=
  match o with
  | Observed e _ => match e with PollsSelectOwner _ => true | _ => false end
  end.

(** The existence check of [submitVote]. *)
Definition is_vote_lookup (o : Obs) : bool :=
  match o with
  | Observed e _ => match e with VotesSelectId _ _ => true | _ => false end
  end.

(** The poll a write carries: its question and options. *)
Definition written_poll (o : Obs) : option (string * list string) :=
  match o with
  | Observed e _ =>
      match e with
      | PollsInsert _ q opts => Some (q, opts)
      | PollsUpdate _ _ q opts => Some (q, opts)
      | _ => None
      end
  end.

(** A session lookup. *)
Definition is_session_lookup (o : Obs) : bool :=
  match o with
  | Observed e _ => match e with AuthGetUser => true | _ => false end
  end.

(** The user whose polls a listing query asks for, and the poll a
    by-id query asks for. *)
Definition listed_user (o : Obs) : option string :=
  match o with
  | Observed e _ => match e with PollsSelectByUser uid => Some uid | _ => None end
  end.

Definition read_poll (o : Obs) : option string :=
  match o with
  | Observed e _ => match e with PollsSelectById i => Some i | _ => None end
  end.

(** Every store operation of the trace is a listing of the polls of a
    user that a session lookup of the trace reported. *)
Definition lists_own_polls_only (trace : list Obs) : bool :=
  forallb
    (fun o =>
       negb (is_store_op o)
       || match listed_user o with
          | Some uid => existsb (String.eqb uid) (session_ids trace)
          | None => false
          end)
    trace.

(** Every store operation of the trace is a read of the poll [i]. *)
Definition reads_poll_only (i : string) (trace : list Obs) : bool :=
  forallb
    (fun o =>
       negb (is_store_op o)
       || match read_poll o with
          | Some j => String.eqb j i
          | None => false
          end)
    trace.

(** A password check sent to the auth backend. *)
Definition is_sign_in (o : Obs) : bool :=
  match o with
  | Observed e _ =>
      match e with AuthSignInWithPassword _ _ => true | _ => false end
  end.

(** What [login] returns when the limiter denies it. *)
Definition login_denied : Outcome ActionResult :=
  Returned {| error := Message "Too many login attempts. Please try again later." |}.

(** The poll a write carries is within the bounds of the schema's
    output. *)
Definition write_within_bounds (o : Obs) : Prop :=
  match written_poll o with
  | Some (q, opts) =>
      (2 <= length opts)%nat
      /\ (String.length q <= 255)%nat
      /\ Forall (fun opt => (String.length opt <= 100)%nat) opts
  | None => True
  end.




(** The four actions of the poll module that build a [rateLimitKey]. *)
Definition poll_action_names : list string :=
  ["create-poll"; "submit-vote"; "delete-poll"; "update-poll"].

(** A string made of white space only. *)
Fixpoint all_space (s : string) : bool :=
  match s with
  | EmptyString => true
  | String c rest => is_space c && all_space rest
  end.

(** A form entry that is a string of [lo] to [hi] code units. *)
Definition string_within (lo hi : nat) (v : FormDataEntryValue) : Prop :=
  match v with
  | FormString s => (lo <= String.length s <= hi)%nat
  | FormFile => False
  end.

(** What [createPoll] and [updatePoll] hand to [pollSchema]. *)
Definition poll_input (formData : FormData) : PollInput :=
  {| raw_question := get "question" formData;
     raw_options := List.filter Boolean (getAll "options" formData) |}.

End Coverage.

(* ===================================================================== *)
(** * Properties of the rate limiter                                      *)
(* ===================================================================== *)

Module RateLimitFacts.
Import RateLimit Spec.

Lemma check_opens now key m :
  opens_window now key m ->
  checkRateLimit_at now key m
    = (true, <[key := {| count := 1; lastReset := now |}]> m).
Proof.
  unfold opens_window, checkRateLimit_at.
  destruct (m !! key) as [e|]; [|reflexivity].
  intros H. apply Z.gtb_gt in H. now rewrite H.
Qed.

Lemma check_opens_state now key m :
  opens_window now key m ->
  window_state key now 1 (snd (checkRateLimit_at now key m)).
Proof.
  intros H. rewrite (check_opens _ _ _ H). unfold window_state. simpl.
  now rewrite lookup_insert_eq.
Qed.

Lemma check_other now k key m :
  k <> key -> snd (checkRateLimit_at now k m) !! key = m !! key.
Proof.
  intros Hne. unfold checkRateLimit_at.
  destruct (m !! k) as [e|]; simpl.
  - destruct (now - lastReset e >? RESET_INTERVAL); simpl;
      [now rewrite lookup_insert_ne|].
    destruct (count e >=? MAX_ATTEMPTS); simpl;
      [reflexivity | now rewrite lookup_insert_ne].
  - now rewrite lookup_insert_ne.
Qed.

Lemma check_in_window key start n now m :
  (1 <= n)%nat ->
  window_state key start n m ->
  in_window start now ->
  fst (checkRateLimit_at now key m) = (Z.of_nat n <? MAX_ATTEMPTS)
  /\ window_state key start (S n) (snd (checkRateLimit_at now key m)).
Proof.
  unfold window_state, in_window, checkRateLimit_at.
  intros Hn Hm Hw. rewrite Hm. cbn [count lastReset].
  assert (Hnr : (now - start >? RESET_INTERVAL) = false)
    by (rewrite Z.gtb_ltb; apply Z.ltb_ge; lia).
  rewrite Hnr. unfold MAX_ATTEMPTS in *.
  destruct (Z.ltb_spec (Z.of_nat n) 5) as [Hlt|Hge].
  - assert (Hc : (Z.min (Z.of_nat n) 5 >=? 5) = false)
      by (rewrite Z.geb_leb; apply Z.leb_gt; lia).
    rewrite Hc. cbn [fst snd]. split; [reflexivity|].
    rewrite lookup_insert_eq. do 2 f_equal. lia.
  - assert (Hc : (Z.min (Z.of_nat n) 5 >=? 5) = true)
      by (rewrite Z.geb_leb; apply Z.leb_le; lia).
    rewrite Hc. cbn [fst snd]. split; [reflexivity|].
    rewrite Hm. do 2 f_equal. lia.
Qed.

Lemma times_for_cons_same key now cs :
  times_for key ((key, now) :: cs) = now :: times_for key cs.
Proof. unfold times_for. simpl. now rewrite String.eqb_refl. Qed.

Lemma times_for_cons_other k key now cs :
  k <> key -> times_for key ((k, now) :: cs) = times_for key cs.
Proof.
  intros Hne. unfold times_for. simpl.
  apply String.eqb_neq in Hne. now rewrite Hne.
Qed.

(** The calls that follow the opening one, as long as those made under
    [key] read a clock inside the window: the [i]-th call of the window
    is allowed exactly when [i <= MAX_ATTEMPTS], whatever is done under
    other keys in between. *)
Lemma answers_in_window key start cs : forall n m,
  (1 <= n)%nat ->
  window_state key start n m ->
  Forall (in_window start) (times_for key cs) ->
  answers_for key cs m
    = map (fun i => Z.of_nat i <? MAX_ATTEMPTS)
          (seq n (length (times_for key cs)))
  /\ window_state key start (n + length (times_for key cs))
                  (snd (run_calls cs m)).
Proof.
  induction cs as [|[k now] cs IH]; intros n m Hn Hm Hall.
  - simpl. split; [reflexivity|]. now rewrite Nat.add_0_r.
  - cbn [answers_for run_calls].
    destruct (checkRateLimit_at now k m) as [ok m1] eqn:Hstep.
    destruct (String.eqb_spec k key) as [->|Hne].
    + rewrite times_for_cons_same in *.
      inversion Hall as [|? ? Hnow Hrest]; subst.
      destruct (check_in_window key start n now m Hn Hm Hnow) as [Hok Hm1].
      rewrite Hstep in Hok, Hm1. cbn [fst snd] in Hok, Hm1.
      destruct (IH (S n) m1 ltac:(lia) Hm1 Hrest) as [Hans Hfin].
      destruct (run_calls cs m1) as [oks m2]. cbn [snd] in *.
      cbn [length seq map]. rewrite Hans, Hok.
      split; [reflexivity|].
      now replace (n + S (length (times_for key cs)))%nat
        with (S n + length (times_for key cs))%nat by lia.
    + rewrite (times_for_cons_other _ _ _ _ Hne) in *.
      assert (Hm1 : window_state key start n m1).
      { unfold window_state in *.
        pose proof (check_other now k key m Hne) as Ho.
        rewrite Hstep in Ho. cbn [snd] in Ho. now rewrite Ho. }
      destruct (IH n m1 Hn Hm1 Hall) as [Hans Hfin].
      destruct (run_calls cs m1) as [oks m2]. cbn [snd] in *.
      now split.
Qed.

Lemma check_keeps_range now key m :
  map_Forall (fun _ e => count_in_range e) m ->
  map_Forall (fun _ e => count_in_range e) (snd (checkRateLimit_at now key m)).
Proof.
  intros Hm. unfold checkRateLimit_at.
  assert (Hone : count_in_range {| count := 1; lastReset := now |})
    by (unfold count_in_range, MAX_ATTEMPTS; simpl; lia).
  destruct (m !! key) as [e|] eqn:He; cbn [snd].
  - destruct (now - lastReset e >? RESET_INTERVAL); cbn [snd].
    { now apply map_Forall_insert_2. }
    destruct (Z.geb_spec (count e) MAX_ATTEMPTS) as [Hge|Hlt]; cbn [snd].
    { exact Hm. }
    apply map_Forall_insert_2; [|exact Hm].
    pose proof (Hm key e He) as Hr.
    unfold count_in_range in *. simpl. lia.
  - now apply map_Forall_insert_2.
Qed.

Lemma run_calls_keeps_range cs : forall m,
  map_Forall (fun _ e => count_in_range e) m ->
  map_Forall (fun _ e => count_in_range e) (snd (run_calls cs m)).
Proof.
  induction cs as [|[k now] cs IH]; intros m Hm; [exact Hm|].
  cbn [run_calls].
  pose proof (check_keeps_range now k m Hm) as H1.
  destruct (checkRateLimit_at now k m) as [ok m1]. cbn [snd] in H1.
  specialize (IH m1 H1).
  now destruct (run_calls cs m1) as [oks m2].
Qed.

(** The three ways a call can go, for any table. *)
Lemma check_cases now key m :
  (fst (checkRateLimit_at now key m) = true
     /\ opens_window now key m
     /\ snd (checkRateLimit_at now key m)
          = <[key := {| count := 1; lastReset := now |}]> m)
  \/ (fst (checkRateLimit_at now key m) = true
     /\ exists e, m !! key = Some e /\ count e < MAX_ATTEMPTS
          /\ snd (checkRateLimit_at now key m)
               = <[key := {| count := count e + 1;
                             lastReset := lastReset e |}]> m)
  \/ (fst (checkRateLimit_at now key m) = false
     /\ (exists e, m !! key = Some e /\ MAX_ATTEMPTS <= count e)
     /\ snd (checkRateLimit_at now key m) = m).
Proof.
  unfold checkRateLimit_at, opens_window.
  destruct (m !! key) as [e|] eqn:He.
  - destruct (Z.gtb_spec (now - lastReset e) RESET_INTERVAL) as [Hgt|Hle].
    { left. cbn [fst snd]. repeat split; [lia]. }
    destruct (Z.geb_spec (count e) MAX_ATTEMPTS) as [Hge|Hlt]; cbn [fst snd].
    + right; right. repeat split. exists e. split; [reflexivity | lia].
    + right; left. split; [reflexivity|]. exists e. repeat split. lia.
  - left. cbn [fst snd]. repeat split.
Qed.

(** C1. Under any key, the call that opens a window and the next
    [MAX_ATTEMPTS - 1] calls made under that key inside the window are
    all allowed, and the call after those, still inside the window, is
    denied: [MAX_ATTEMPTS] times [true], then [false]. Calls made under
    other keys in between change nothing. *)
Theorem checkRateLimit_allows_max_then_denies key m start cs :
  opens_window start key m ->
  length (times_for key cs) = Z.to_nat MAX_ATTEMPTS ->
  Forall (in_window start) (times_for key cs) ->
  answers_for key ((key, start) :: cs) m
    = repeat true (Z.to_nat MAX_ATTEMPTS) ++ [false].
Proof.
  intros Hopen Hlen Hall. cbn [answers_for].
  pose proof (check_opens_state start key m Hopen) as Hst.
  rewrite (check_opens _ _ _ Hopen) in *. cbn [snd] in Hst.
  rewrite String.eqb_refl.
  destruct (answers_in_window key start cs 1 _ (le_n 1) Hst Hall) as [-> _].
  rewrite Hlen. reflexivity.
Qed.

(** C9. Once more than [RESET_INTERVAL] has passed since the call that
    opened the current window of a key, the next call under that key
    stores [count = 1] with the new clock reading as window start and
    answers [true], however many calls (allowed or denied) the old
    window saw. *)
Theorem checkRateLimit_resets_after_interval key m start cs now :
  opens_window start key m ->
  Forall (in_window start) (times_for key cs) ->
  now - start > RESET_INTERVAL ->
  checkRateLimit_at now key (snd (run_calls ((key, start) :: cs) m))
    = (true, <[key := {| count := 1; lastReset := now |}]>
               (snd (run_calls ((key, start) :: cs) m))).
Proof.
  intros Hopen Hall Hlate. cbn [run_calls].
  pose proof (check_opens_state start key m Hopen) as Hst.
  rewrite (check_opens _ _ _ Hopen) in *. cbn [snd] in Hst.
  destruct (answers_in_window key start cs 1 _ (le_n 1) Hst Hall) as [_ Hfin].
  destruct (run_calls cs _) as [oks m2]. cbn [snd] in *.
  apply check_opens. unfold opens_window. now rewrite Hfin.
Qed.

(** C10. Whatever calls were made since the table was created, every
    stored counter lies between 1 and [MAX_ATTEMPTS]; and a further call
    either resets the entry of its key to count 1, or increments a
    counter that was below [MAX_ATTEMPTS], or is denied and leaves the
    table as it was. *)
Theorem rate_table_counts_bounded (cs : list (string * Z)) :
  map_Forall (fun _ e => 1 <= count e <= MAX_ATTEMPTS)
             (snd (run_calls cs empty_table))
  /\ forall now key,
       let m := snd (run_calls cs empty_table) in
       let r := checkRateLimit_at now key m in
       (fst r = true
          /\ snd r = <[key := {| count := 1; lastReset := now |}]> m)
       \/ (fst r = true
          /\ exists e, m !! key = Some e /\ count e < MAX_ATTEMPTS
               /\ snd r = <[key := {| count := count e + 1;
                                      lastReset := lastReset e |}]> m)
       \/ (fst r = false /\ snd r = m).
Proof.
  split.
  - apply (run_calls_keeps_range cs empty_table), map_Forall_empty.
  - intros now key m r. subst r.
    destruct (check_cases now key m) as [(Ht & _ & Hm)|[(Ht & He)|(Hf & _ & Hm)]].
    + left. now split.
    + right; left. now split.
    + right; right. now split.
Qed.

(** A run of C1: five calls in a window are allowed, the sixth is not;
    the call under another key in between does not count. *)
Lemma checkRateLimit_allows_max_then_denies_witness :
  answers_for "login-ann@example.org"
    [("login-ann@example.org", 1000); ("login-ann@example.org", 1001);
     ("login-bob@example.org", 1002); ("login-ann@example.org", 2000);
     ("login-ann@example.org", 30000); ("login-ann@example.org", 61000);
     ("login-ann@example.org", 61000)] empty_table
  = [true; true; true; true; true; false].
Proof.
  apply (checkRateLimit_allows_max_then_denies "login-ann@example.org"
           empty_table 1000
           [("login-ann@example.org", 1001); ("login-bob@example.org", 1002);
            ("login-ann@example.org", 2000); ("login-ann@example.org", 30000);
            ("login-ann@example.org", 61000); ("login-ann@example.org", 61000)]).
  - exact I.
  - reflexivity.
  - unfold times_for; simpl.
    repeat (apply List.Forall_cons; [unfold in_window, RESET_INTERVAL; lia|]).
    apply List.Forall_nil.
Defined.

(** A run of C9: the sixth call was denied at 61000; at 61001 the
    window opened at 1000 is over and the call is allowed again. *)
Lemma checkRateLimit_resets_after_interval_witness :
  fst (checkRateLimit_at 61001 "login-ann@example.org"
         (snd (run_calls
                 [("login-ann@example.org", 1000); ("login-ann@example.org", 1001);
                  ("login-ann@example.org", 1002); ("login-ann@example.org", 2000);
                  ("login-ann@example.org", 30000); ("login-ann@example.org", 61000)]
                 empty_table)))
  = true.
Proof.
  rewrite (checkRateLimit_resets_after_interval "login-ann@example.org"
             empty_table 1000
             [("login-ann@example.org", 1001); ("login-ann@example.org", 1002);
              ("login-ann@example.org", 2000); ("login-ann@example.org", 30000);
              ("login-ann@example.org", 61000)] 61001).
  - reflexivity.
  - exact I.
  - unfold times_for; simpl.
    repeat (apply List.Forall_cons; [unfold in_window, RESET_INTERVAL; lia|]).
    apply List.Forall_nil.
  - unfold RESET_INTERVAL; lia.
Defined.

End RateLimitFacts.


(* ===================================================================== *)
(** * Properties of the actions                                           *)
(* ===================================================================== *)

Module ActionFacts.
Import Zod World Result RateLimit PollActions Spec.

(** Running a sequence is running its parts in turn. *)
Lemma run_bind {A B : Type} (env : Env) (p : Prog A) (f : A -> Prog B) :
  forall history,
    run env history (bind p f)
    = run env (snd (run env history p)) (f (fst (run env history p))).
Proof.
  induction p as [a | X e k IH]; intros history; cbn [run bind fst snd].
  - reflexivity.
  - apply IH.
Qed.

(** A run only ever adds to the history. *)
Lemma run_extends {R : Type} (env : Env) (p : Prog R) :
  forall history, exists rest, snd (run env history p) = history ++ rest.
Proof.
  induction p as [r | X e k IH]; intros history; cbn [run snd].
  - exists []. now rewrite app_nil_r.
  - destruct (IH (env X history e) (history ++ [Observed e (env X history e)]))
      as [rest Hrest].
    exists (Observed e (env X history e) :: rest).
    rewrite Hrest. now rewrite <- app_assoc.
Qed.

(** What holds of every leaf holds of the result of a run. *)
Lemma run_always {R : Type} (Q : R -> Prop) (env : Env) (p : Prog R) :
  forall history, always Q p -> Q (fst (run env history p)).
Proof.
  induction p as [r | X e k IH]; intros history Hp; cbn [run always] in *.
  - exact Hp.
  - apply IH, Hp.
Qed.

Lemma gate_before_store_app (seen rest : list Obs) :
  gate_before_store seen = true ->
  existsb is_gate seen = true ->
  gate_before_store (seen ++ rest) = true.
Proof.
  induction seen as [|o seen IH]; cbn [gate_before_store existsb app].
  - discriminate.
  - destruct (is_gate o); [reflexivity|].
    cbn [orb]. intros Hs Hg.
    apply andb_true_iff in Hs as [Ho Hs]. rewrite Ho. cbn [andb]. now apply IH.
Qed.

(** Once the gate has been passed without a store operation before it,
    the rest of the run cannot undo that. *)
Lemma gate_before_store_run {R : Type} (env : Env) (p : Prog R)
    (seen : list Obs) :
  gate_before_store seen = true ->
  existsb is_gate seen = true ->
  gate_before_store (snd (run env seen p)) = true.
Proof.
  intros Hs Hg. destruct (run_extends env p seen) as [rest ->].
  now apply gate_before_store_app.
Qed.

(** Unfold the monadic plumbing of an action applied to its table. *)
Ltac action_unfold :=
  unfold mbind, mret, Action_mbind, Action_mret, Action_bind, Action_ret,
         perform, checkRateLimit;
  cbn [run bind fst snd app always negb].

(** Split on whatever a [match] or [if] of the goal looks at. *)
Ltac split_cases :=
  repeat (action_unfold; intros;
          match goal with
          | |- context [match ?x with _ => _ end] => destruct x eqn:?
          end);
  action_unfold; intros.

Lemma out_of_range_length (opts : list string) :
  out_of_range (Z.of_nat (length opts)) opts = true.
Proof.
  unfold out_of_range. apply orb_true_iff. right.
  rewrite Z.geb_leb. apply Z.leb_le. lia.
Qed.

Lemma out_of_range_last (opts : list string) :
  (1 <= length opts)%nat ->
  out_of_range (Z.of_nat (length opts) - 1) opts = false.
Proof.
  intros Hlen. unfold out_of_range. apply orb_false_iff. split.
  - apply Z.ltb_ge. lia.
  - rewrite Z.geb_leb. apply Z.leb_gt. lia.
Qed.

Lemma out_of_range_spec (i : Z) (opts : list string) :
  out_of_range i opts = false <-> 0 <= i < Z.of_nat (length opts).
Proof.
  unfold out_of_range. rewrite orb_false_iff, Z.ltb_ge, Z.geb_leb, Z.leb_gt. lia.
Qed.

(** [voteSchema] lets through exactly a UUID with a non-negative integer. *)
Lemma voteSchema_valid fmt pollId_ (i : Z) :
  is_uuid fmt pollId_ = true -> 0 <= i ->
  voteSchema fmt {| raw_pollId := pollId_; raw_optionIndex := Int i |}
  = Success {| pollId := pollId_; optionIndex := i |}.
Proof.
  intros Hid Hi. unfold voteSchema, check_uuid, optionIndex_issues.
  cbn [raw_pollId raw_optionIndex]. rewrite Hid.
  assert (Hneg : (i <? 0) = false) by (apply Z.ltb_ge; lia).
  now rewrite Hneg.
Qed.

Lemma idSchema_valid fmt id_ :
  is_uuid fmt id_ = true -> idSchema fmt id_ = Success id_.
Proof. intros Hid. unfold idSchema, check_uuid. now rewrite Hid. Qed.

Lemma idSchema_invalid fmt id_ :
  is_uuid fmt id_ = false ->
  idSchema fmt id_ = Failure [mkIssue [] "Invalid ID format"].
Proof. intros Hid. unfold idSchema, check_uuid. now rewrite Hid. Qed.

(** C6. Whoever calls and whatever poll is fetched: once the identifier
    has passed the schema and the limiter has let the call through, an
    [optionIndex] equal to the number of options of that poll is answered
    with the out-of-range error, right after the fetch; an [optionIndex]
    one below it passes the range test, so the action goes on to the
    session lookup that follows and does not return that error. *)
Theorem submitVote_option_index_range
    fmt (env : Env) (m : gmap string Entry) pollId_ (opts : list string) au now :
  is_uuid fmt pollId_ = true ->
  (forall h, env _ h AuthGetUser = au) ->
  (forall h, env _ h DateNow = now) ->
  fst (checkRateLimit_at now (rateLimitKey "submit-vote" (user au)) m) = true ->
  (forall h, env _ h (PollsSelectOptions pollId_)
             = {| data := Some opts; World.error := None |}) ->
  let m1 := snd (checkRateLimit_at now (rateLimitKey "submit-vote" (user au)) m) in
  let fetched :=
    [Observed AuthGetUser au; Observed DateNow now;
     Observed (PollsSelectOptions pollId_)
              {| data := Some opts; World.error := None |}] in
  run env [] (submitVote fmt pollId_ (Int (Z.of_nat (length opts))) m)
  = ((Returned {| error := Message "Invalid option selected." |}, m1), fetched)
  /\ ((1 <= length opts)%nat ->
      out_of_range (Z.of_nat (length opts) - 1) opts = false
      /\ fst (fst (run env [] (submitVote fmt pollId_
                                 (Int (Z.of_nat (length opts) - 1)) m)))
         <> Returned {| error := Message "Invalid option selected." |}
      /\ exists rest,
           snd (run env [] (submitVote fmt pollId_
                              (Int (Z.of_nat (length opts) - 1)) m))
           = fetched ++ Observed AuthGetUser au :: rest).
Proof.
  intros Hid Hau Hnow Hok Hopts m1 fetched. subst m1 fetched.
  destruct (checkRateLimit_at now _ m) as [ok m1] eqn:Hgate.
  cbn [fst snd] in *. subst ok.
  split; [|intros Hlen; split; [now apply out_of_range_last|]].
  - unfold submitVote. rewrite voteSchema_valid by (assumption || lia).
    cbn [pollId optionIndex]. action_unfold. rewrite Hau, Hnow, Hgate.
    action_unfold. rewrite Hopts. cbn [data World.error].
    rewrite out_of_range_length. reflexivity.
  - unfold submitVote. rewrite voteSchema_valid by (assumption || lia).
    cbn [pollId optionIndex]. action_unfold. rewrite Hau, Hnow, Hgate.
    action_unfold. rewrite Hopts. cbn [data World.error].
    rewrite (out_of_range_last opts Hlen). action_unfold. rewrite Hau.
    split.
    + match goal with
      | |- fst (fst (run _ ?h ?p)) <> ?bad =>
          apply (run_always (fun r => fst r <> bad) env p h)
      end.
      unfold submitVote_insert. split_cases; cbn [fst]; discriminate.
    + match goal with
      | |- exists rest, snd (run _ ?h ?p) = _ =>
          destruct (run_extends env p h) as [rest Hrest]
      end.
      exists rest. exact Hrest.
Qed.

(** A run of C6: the sample poll has two options; index 2 is refused. *)
Lemma submitVote_option_index_range_witness :
  run (answering healthy) [] (submitVote sample_formats sample_poll_id (Int 2) ∅)
  = ((Returned {| error := Message "Invalid option selected." |},
      {[ "submit-vote-ann" := {| count := 1; lastReset := 1000 |} ]}),
     [Observed AuthGetUser ann_session; Observed DateNow 1000;
      Observed (PollsSelectOptions sample_poll_id)
               {| data := Some ["Red"; "Blue"]; World.error := None |}]).
Proof.
  refine (proj1 (submitVote_option_index_range sample_formats (answering healthy)
                   ∅ sample_poll_id ["Red"; "Blue"] ann_session 1000
                   _ _ _ _ _)).
  - reflexivity.
  - reflexivity.
  - reflexivity.
  - reflexivity.
  - reflexivity.
Defined.

(** C7. A signed-in caller whose id is not the [user_id] recorded for the
    poll gets the authorization error, and the exchange ends with the
    ownership fetch: no delete (no request that changes a row) is issued.
    For the owner, the action issues the delete filtered by poll id and by
    the owner's id, then signals the listing page and returns no error. *)
Theorem deletePoll_owner_only
    fmt (env : Env) (m : gmap string Entry) id_ (u : User) (owner : string) now :
  is_uuid fmt id_ = true ->
  (forall h, env _ h AuthGetUser = {| user := Some u; userError := None |}) ->
  (forall h, env _ h DateNow = now) ->
  fst (checkRateLimit_at now (rateLimitKey "delete-poll" (Some u)) m) = true ->
  (forall h, env _ h (PollsSelectOwner id_)
             = {| data := Some owner; World.error := None |}) ->
  let m1 := snd (checkRateLimit_at now (rateLimitKey "delete-poll" (Some u)) m) in
  let checked :=
    [Observed AuthGetUser {| user := Some u; userError := None |};
     Observed DateNow now;
     Observed (PollsSelectOwner id_) {| data := Some owner; World.error := None |}] in
  (owner <> id u ->
     run env [] (deletePoll fmt id_ m)
     = ((Returned {| error := Message "You are not authorized to delete this poll." |},
         m1), checked)
     /\ existsb is_mutation checked = false)
  /\ (owner = id u ->
      (forall h, env _ h (PollsDelete id_ (id u)) = None) ->
      run env [] (deletePoll fmt id_ m)
      = ((Returned {| error := Null |}, m1),
         checked ++ [Observed (PollsDelete id_ (id u)) None;
                     Observed (RevalidatePath "/polls") tt])).
Proof.
  intros Hid Hau Hnow Hok Howner m1 checked. subst m1 checked.
  destruct (checkRateLimit_at now _ m) as [ok m1] eqn:Hgate.
  cbn [fst snd] in *. subst ok.
  split.
  - intros Hne. split; [|reflexivity].
    unfold deletePoll. rewrite (idSchema_valid _ _ Hid).
    action_unfold. rewrite Hau, Hnow. cbn [user userError]. rewrite Hgate.
    action_unfold. rewrite Howner. cbn [data World.error].
    apply String.eqb_neq in Hne. rewrite Hne. reflexivity.
  - intros Heq Hdel.
    unfold deletePoll. rewrite (idSchema_valid _ _ Hid).
    action_unfold. rewrite Hau, Hnow. cbn [user userError]. rewrite Hgate.
    action_unfold. rewrite Howner. cbn [data World.error].
    rewrite Heq, String.eqb_refl. action_unfold. rewrite Hdel.
    action_unfold.
    match goal with |- context [env unit ?h ?e] => destruct (env unit h e) end.
    reflexivity.
Qed.

(** A run of C7: Bob asks to delete Ann's poll. *)
Lemma deletePoll_owner_only_witness :
  run (answering {| clock := 1000;
                    session := {| user := Some {| id := "bob" |}; userError := None |};
                    auth_error := None;
                    poll_options := poll_options healthy;
                    poll_owner := {| data := Some "ann"; World.error := None |};
                    existing_vote := existing_vote healthy;
                    poll_row := poll_row healthy;
                    user_polls := user_polls healthy;
                    write_error := None |})
      [] (deletePoll sample_formats sample_poll_id ∅)
  = ((Returned {| error := Message "You are not authorized to delete this poll." |},
      {[ "delete-poll-bob" := {| count := 1; lastReset := 1000 |} ]}),
     [Observed AuthGetUser {| user := Some {| id := "bob" |}; userError := None |};
      Observed DateNow 1000;
      Observed (PollsSelectOwner sample_poll_id)
               {| data := Some "ann"; World.error := None |}]).
Proof.
  refine (proj1 (proj1 (deletePoll_owner_only sample_formats _ ∅ sample_poll_id
                          {| id := "bob" |} "ann" 1000 _ _ _ _ _) _)).
  - reflexivity.
  - reflexivity.
  - reflexivity.
  - reflexivity.
  - reflexivity.
  - discriminate.
Defined.

Lemma voteSchema_success fmt input validated :
  voteSchema fmt input = Success validated ->
  pollId validated = raw_pollId input.
Proof.
  unfold voteSchema, conclude.
  destruct (check_uuid _ _ _ _ ++ optionIndex_issues _); [|discriminate].
  intros [= <-]. reflexivity.
Qed.

(** C5, as the code has it. For a signed-in caller, an identifier that
    passes the schema, an index in range for the fetched poll and a call
    the limiter lets through, the answer of the existence check decides:
    - a row found: the duplicate error, and no request that changes a row;
    - no row (PGRST116), as for a user who has not voted yet: the vote is
      inserted under the caller's id, and with no insert error the action
      returns no error;
    - any other error of the check: the retrieval error, logged, and no
      request that changes a row.
    And when a row is found, no index at all, valid or not, leads to an
    insert. *)
Theorem submitVote_duplicate_vote
    fmt (env : Env) (m : gmap string Entry) pollId_ (idx : Z)
    (opts : list string) (u : User) ue now (r : Response string) :
  is_uuid fmt pollId_ = true ->
  0 <= idx < Z.of_nat (length opts) ->
  (forall h, env _ h AuthGetUser = {| user := Some u; userError := ue |}) ->
  (forall h, env _ h DateNow = now) ->
  fst (checkRateLimit_at now (rateLimitKey "submit-vote" (Some u)) m) = true ->
  (forall h, env _ h (PollsSelectOptions pollId_)
             = {| data := Some opts; World.error := None |}) ->
  (forall h, env _ h (VotesSelectId pollId_ (id u)) = r) ->
  let m1 := snd (checkRateLimit_at now (rateLimitKey "submit-vote" (Some u)) m) in
  let asked :=
    [Observed AuthGetUser {| user := Some u; userError := ue |};
     Observed DateNow now;
     Observed (PollsSelectOptions pollId_)
              {| data := Some opts; World.error := None |};
     Observed AuthGetUser {| user := Some u; userError := ue |};
     Observed (VotesSelectId pollId_ (id u)) r] in
  (forall v, data r = Some v ->
     run env [] (submitVote fmt pollId_ (Int idx) m)
     = ((Returned {| error := Message "You have already voted on this poll." |}, m1),
        asked)
     /\ existsb is_mutation asked = false
     /\ forall (n : number) (m' : gmap string Entry),
          existsb is_mutation (snd (run env [] (submitVote fmt pollId_ n m'))) = false)
  /\ (forall e, data r = None -> World.error r = Some e -> code e = "PGRST116" ->
      (forall h, env _ h (VotesInsert pollId_ (Some (id u)) idx) = None) ->
      run env [] (submitVote fmt pollId_ (Int idx) m)
      = ((Returned {| error := Null |}, m1),
         asked ++ [Observed (VotesInsert pollId_ (Some (id u)) idx) None]))
  /\ (forall e, data r = None -> World.error r = Some e -> code e <> "PGRST116" ->
      run env [] (submitVote fmt pollId_ (Int idx) m)
      = ((Returned {| error := Message "Failed to check for existing vote." |}, m1),
         asked ++ [Observed (ConsoleError "Error checking for existing vote:" (Some e)) tt])
      /\ existsb is_mutation
           (asked ++ [Observed (ConsoleError "Error checking for existing vote:" (Some e)) tt])
         = false).
Proof.
  intros Hid Hidx Hau Hnow Hok Hopts Hvote m1 asked. subst m1 asked.
  destruct (checkRateLimit_at now _ m) as [ok m1] eqn:Hgate.
  cbn [fst snd] in *. subst ok.
  assert (Hin : out_of_range idx opts = false) by now apply out_of_range_spec.
  assert (Hstart :
    run env [] (submitVote fmt pollId_ (Int idx) m)
    = run env
        [Observed AuthGetUser {| user := Some u; userError := ue |};
         Observed DateNow now;
         Observed (PollsSelectOptions pollId_)
                  {| data := Some opts; World.error := None |};
         Observed AuthGetUser {| user := Some u; userError := ue |};
         Observed (VotesSelectId pollId_ (id u)) r]
        (match data r with
         | Some _ =>
             Ret (Returned {| error := Message "You have already voted on this poll." |}, m1)
         | None =>
             match World.error r with
             | Some e =>
                 if negb (String.eqb (code e) "PGRST116") then
                   Vis (ConsoleError "Error checking for existing vote:" (Some e))
                       (fun _ => Ret (Returned {| error := Message "Failed to check for existing vote." |}, m1))
                 else submitVote_insert pollId_ (Some u) idx m1
             | None => submitVote_insert pollId_ (Some u) idx m1
             end
         end)).
  { unfold submitVote. rewrite voteSchema_valid by (assumption || lia).
    cbn [pollId optionIndex]. action_unfold. rewrite Hau, Hnow. cbn [user].
    rewrite Hgate. action_unfold. rewrite Hopts. cbn [data World.error].
    rewrite Hin. action_unfold. rewrite Hau. cbn [user]. action_unfold.
    rewrite Hvote. f_equal.
    destruct (data r); [reflexivity|].
    destruct (World.error r) as [e|]; [|reflexivity].
    destruct (negb (String.eqb (code e) "PGRST116")); reflexivity. }
  rewrite Hstart. clear Hstart.
  split; [|split].
  - intros v Hv. rewrite Hv. cbn [run].
    split; [reflexivity|]. split; [reflexivity|].
    clear Hin Hidx Hgate. intros n m'. unfold submitVote.
    destruct (voteSchema fmt _) as [validated|failure] eqn:Hparse;
      [|reflexivity].
    apply voteSchema_success in Hparse. cbn [raw_pollId] in Hparse.
    rewrite Hparse. action_unfold. rewrite Hau, Hnow. cbn [user].
    destruct (checkRateLimit_at now _ m') as [[|] m2]; action_unfold;
      [|reflexivity].
    rewrite Hopts. cbn [data World.error].
    destruct (out_of_range _ opts); [reflexivity|].
    action_unfold. rewrite Hau. cbn [user]. action_unfold. rewrite Hvote, Hv.
    reflexivity.
  - intros e Hd He Hcode Hins. rewrite Hd, He, Hcode, String.eqb_refl. cbn [negb].
    unfold submitVote_insert. cbn [option_map]. action_unfold. rewrite Hins.
    reflexivity.
  - intros e Hd He Hcode. rewrite Hd, He.
    apply String.eqb_neq in Hcode. rewrite Hcode. cbn [negb run app].
    match goal with |- context [env unit ?h ?ev] => destruct (env unit h ev) end.
    split; reflexivity.
Qed.

(** A run of the amended C5: Ann votes a second time, for option 1. *)
Lemma submitVote_duplicate_vote_witness :
  run (answering ann_has_voted) [] (submitVote sample_formats sample_poll_id (Int 1) ∅)
  = ((Returned {| error := Message "You have already voted on this poll." |},
      {[ "submit-vote-ann" := {| count := 1; lastReset := 1000 |} ]}),
     [Observed AuthGetUser ann_session; Observed DateNow 1000;
      Observed (PollsSelectOptions sample_poll_id)
               {| data := Some ["Red"; "Blue"]; World.error := None |};
      Observed AuthGetUser ann_session;
      Observed (VotesSelectId sample_poll_id "ann")
               {| data := Some "vote-1"; World.error := None |}]).
Proof.
  refine (proj1 (proj1 (submitVote_duplicate_vote sample_formats
                          (answering ann_has_voted) ∅ sample_poll_id 1
                          ["Red"; "Blue"] {| id := "ann" |} None 1000
                          {| data := Some "vote-1"; World.error := None |}
                          _ _ _ _ _ _ _) "vote-1" _)).
  - reflexivity.
  - cbn [length]. lia.
  - reflexivity.
  - reflexivity.
  - reflexivity.
  - reflexivity.
  - reflexivity.
  - reflexivity.
Defined.

(** C5 as stated fails: Ann has voted, and votes again with index 2 on
    the two-option poll. The range test comes before the existence check,
    so she is told that the option is invalid, not that she has voted. *)
Lemma submitVote_duplicate_any_index_counterexample :
  existing_vote ann_has_voted = {| data := Some "vote-1"; World.error := None |}
  /\ run (answering ann_has_voted) []
         (submitVote sample_formats sample_poll_id (Int 2) ∅)
     = ((Returned {| error := Message "Invalid option selected." |},
         {[ "submit-vote-ann" := {| count := 1; lastReset := 1000 |} ]}),
        [Observed AuthGetUser ann_session; Observed DateNow 1000;
         Observed (PollsSelectOptions sample_poll_id)
                  {| data := Some ["Red"; "Blue"]; World.error := None |}])
  /\ fst (fst (run (answering ann_has_voted) []
                   (submitVote sample_formats sample_poll_id (Int 2) ∅)))
     <> Returned {| error := Message "You have already voted on this poll." |}.
Proof.
  split; [reflexivity|]. split; [reflexivity|].
  vm_compute. discriminate.
Qed.

(** A denied call leaves the table as it was. *)
Lemma denied_unchanged now key (m : gmap string Entry) :
  fst (checkRateLimit_at now key m) = false ->
  checkRateLimit_at now key m = (false, m).
Proof.
  intros Hf.
  destruct (RateLimitFacts.check_cases now key m)
    as [(Ht & _)|[(Ht & _)|(_ & _ & Hm)]]; try congruence.
  destruct (checkRateLimit_at now key m) as [ok m1]. cbn [fst snd] in *.
  congruence.
Qed.

(** The question passes its checks exactly when its length, before
    trimming, is between 5 and 255. *)
Lemma question_issues_boundary (q : string) :
  question_issues (Some (FormString q)) = []
  <-> (5 <= String.length q <= 255)%nat.
Proof.
  unfold question_issues, min_length, max_length.
  destruct (Nat.ltb_spec (String.length q) 5) as [Hlt|Hge];
    destruct (Nat.ltb_spec 255 (String.length q)) as [Hgt|Hle];
    cbn [app]; split; intros H; try discriminate; try lia; reflexivity.
Qed.

(** Whatever the form: once past the gate, a form that [pollSchema]
    rejects ends [createPoll] in a thrown [ZodError]. *)
Lemma createPoll_rejection_is_thrown (env : Env) m formData failure :
  pollSchema {| raw_question := get "question" formData;
                raw_options := List.filter Boolean (getAll "options" formData) |}
  = Failure failure ->
  fst (poll_gate env "create-poll" m) = true ->
  run env [] (createPoll formData m)
  = ((Thrown failure, snd (poll_gate env "create-poll" m)), poll_gate_trace env).
Proof.
  intros Hparse Hgate. unfold createPoll, poll_gate, poll_gate_trace in *.
  unfold gate_time, session_seen in *. action_unfold.
  destruct (checkRateLimit_at _ _ m) as [ok m1]. cbn [fst snd] in *. subst ok.
  action_unfold. now rewrite Hparse.
Qed.

(** C3 on the code. A question of four characters makes [pollSchema.parse]
    throw, and [createPoll] lets the [ZodError] escape: the call ends in a
    thrown error, not in a returned [{ error }]. With five characters the
    same form is accepted and the poll is inserted. *)
Theorem createPoll_short_question_throws :
  run (answering healthy) [] (createPoll (poll_form "Why?") ∅)
  = ((Thrown [mkIssue [Key "question"] "Question must be at least 5 characters long"],
      {[ "create-poll-ann" := {| count := 1; lastReset := 1000 |} ]}),
     [Observed AuthGetUser ann_session; Observed DateNow 1000])
  /\ run (answering healthy) [] (createPoll (poll_form "Why??") ∅)
     = ((Returned {| error := Null |},
         {[ "create-poll-ann" := {| count := 1; lastReset := 1000 |} ]}),
        [Observed AuthGetUser ann_session; Observed DateNow 1000;
         Observed AuthGetUser ann_session;
         Observed (PollsInsert "ann" "Why??" ["Red"; "Blue"]) None;
         Observed (RevalidatePath "/polls") tt]).
Proof. split; reflexivity. Qed.

(** C4 on the code. When the session lookup reports an error, [createPoll]
    and [deletePoll] return the backend's own message, word for word, and
    log nothing. *)
Theorem session_error_text_is_returned :
  run (answering session_expired) [] (createPoll (poll_form "Why??") ∅)
  = ((Returned {| error := Message (message expired_token) |},
      {[ "create-poll-anonymous" := {| count := 1; lastReset := 1000 |} ]}),
     [Observed AuthGetUser (session session_expired); Observed DateNow 1000;
      Observed AuthGetUser (session session_expired)])
  /\ run (answering session_expired) [] (deletePoll sample_formats sample_poll_id ∅)
     = ((Returned {| error := Message (message expired_token) |},
         {[ "delete-poll-anonymous" := {| count := 1; lastReset := 1000 |} ]}),
        [Observed AuthGetUser (session session_expired); Observed DateNow 1000]).
Proof. split; reflexivity. Qed.

(** An issue raised on a field of an object never reaches [formErrors]. *)
Lemma flatten_fields_only (issues : list ZodIssue) :
  Forall (fun sub => path sub <> []) issues ->
  formErrors (flatten issues) = [].
Proof.
  unfold flatten.
  assert (Hgen : forall acc,
            Forall (fun sub => path sub <> []) issues ->
            formErrors acc = [] ->
            formErrors
              (fold_left
                 (fun acc sub =>
                    match path sub with
                    | k :: _ =>
                        {| formErrors := formErrors acc;
                           fieldErrors := push_field k (Zod.message sub) (fieldErrors acc) |}
                    | [] =>
                        {| formErrors := formErrors acc ++ [Zod.message sub];
                           fieldErrors := fieldErrors acc |}
                    end) issues acc) = []).
  { induction issues as [|sub issues IH]; intros acc Hall Hacc; [exact Hacc|].
    inversion Hall as [|? ? Hsub Hrest]; subst. cbn [fold_left].
    apply IH; [exact Hrest|].
    destruct (path sub); [contradiction|exact Hacc]. }
  intros Hall. now apply Hgen.
Qed.

(** Whatever the address and the password, a form that [loginSchema]
    rejects yields an empty [formErrors]: every issue sits on a field. *)
Lemma loginSchema_failure_has_no_form_error fmt data failure :
  AuthActions.loginSchema fmt data = Failure failure ->
  first_of (formErrors (flatten failure)) = Undefined.
Proof.
  unfold AuthActions.loginSchema, conclude, check_email, min_length.
  intros Hfail.
  assert (Hall : Forall (fun sub => path sub <> []) failure).
  { destruct (is_email fmt _), (Nat.ltb _ 6); cbn [app] in Hfail;
      try discriminate; injection Hfail as <-;
      repeat (apply List.Forall_cons; [discriminate|]); apply List.Forall_nil. }
  now rewrite (flatten_fields_only _ Hall).
Qed.

(** Whatever the form: once past the gate, a login that the schema
    rejects is answered [{ error: undefined }]. *)
Lemma login_rejection_is_undefined fmt (env : Env) m data failure :
  AuthActions.loginSchema fmt data = Failure failure ->
  fst (checkRateLimit_at (env _ [] DateNow)
         ("login-" +:+ AuthActions.email data) m) = true ->
  fst (fst (run env [] (AuthActions.login fmt data m)))
  = Returned {| error := Undefined |}.
Proof.
  intros Hparse Hgate. unfold AuthActions.login. action_unfold.
  destruct (checkRateLimit_at _ _ m) as [ok m1]. cbn [fst snd] in *. subst ok.
  action_unfold. rewrite Hparse. action_unfold.
  now rewrite (loginSchema_failure_has_no_form_error _ _ _ Hparse).
Qed.

(** C8 on the code. A login with a malformed address fails the schema
    with one issue, on the field [email]; [flatten] files its message
    under [fieldErrors], [formErrors] is empty, and the action returns
    [{ error: undefined }] instead of the message. *)
Theorem login_validation_error_is_undefined :
  AuthActions.loginSchema sample_formats
    {| AuthActions.email := "not-an-email"; AuthActions.password := "secret123" |}
  = Failure [mkIssue [Key "email"] "Invalid email address"]
  /\ flatten [mkIssue [Key "email"] "Invalid email address"]
     = {| formErrors := [];
          fieldErrors := [(Key "email", ["Invalid email address"])] |}
  /\ run (answering healthy) []
         (AuthActions.login sample_formats
            {| AuthActions.email := "not-an-email";
               AuthActions.password := "secret123" |} ∅)
     = ((Returned {| error := Undefined |},
         {[ "login-not-an-email" := {| count := 1; lastReset := 1000 |} ]}),
        [Observed DateNow 1000]).
Proof. repeat split; reflexivity. Qed.

(** C2 as stated fails. With the limiter exhausted for her, Ann's
    [deletePoll] is denied, but only after the session lookup, a backend
    call, which is needed to build the key: the gate is not the first
    exchange. And her [submitVote] with an identifier that is no UUID is
    answered by the schema without the limiter being consulted at all. *)
Lemma gate_first_counterexample :
  run (answering healthy) []
      (deletePoll sample_formats sample_poll_id (exhausted "delete-poll-ann"))
  = ((Returned {| error := Message "Too many poll deletion attempts. Please try again later." |},
      exhausted "delete-poll-ann"),
     [Observed AuthGetUser ann_session; Observed DateNow 1000])
  /\ existsb is_backend_call
       [Observed AuthGetUser ann_session; Observed DateNow 1000] = true
  /\ ~ gate_first (answering healthy) (deletePoll sample_formats sample_poll_id)
         (exhausted "delete-poll-ann")
  /\ run (answering healthy) []
         (submitVote sample_formats "not-a-uuid" (Int 0) (exhausted "submit-vote-ann"))
     = ((Returned {| error := Undefined |}, exhausted "submit-vote-ann"), [])
  /\ ~ gate_first (answering healthy) (submitVote sample_formats "not-a-uuid" (Int 0))
         (exhausted "submit-vote-ann").
Proof.
  split; [reflexivity|]. split; [reflexivity|].
  split; [unfold gate_first; vm_compute; discriminate|].
  split; [reflexivity|].
  unfold gate_first. vm_compute. tauto.
Qed.

(** The poll actions up to and including the gate. *)
Ltac to_gate :=
  unfold gate_time, session_seen in *; action_unfold.

(** C2, as the code has it. In each of the six rate-limited actions no
    store operation (sign-in, sign-up, or any operation on [polls] or
    [votes]) comes before the gate, and a denial by the limiter ends the
    action there: the result is that action's rate-limit error, the table
    is unchanged, and nothing was asked of the world but the clock and,
    in the poll actions, the session lookup from which the key is built.
    [login], [register] and [createPoll] run no schema before the gate
    (in [login] and [register] the gate is the first exchange);
    [submitVote], [deletePoll] and [updatePoll] validate the identifier
    first, and an input that fails there is answered without consulting
    the limiter. [logout] never consults the limiter. *)
Theorem rate_limit_gate_order :
  (forall fmt (env : Env) m data,
     gate_first env (AuthActions.login fmt data) m
     /\ gate_before_store (snd (run env [] (AuthActions.login fmt data m))) = true
     /\ (fst (checkRateLimit_at (env _ [] DateNow)
                ("login-" +:+ AuthActions.email data) m) = false ->
         run env [] (AuthActions.login fmt data m)
         = ((Returned {| error := Message "Too many login attempts. Please try again later." |}, m),
            [Observed DateNow (env _ [] DateNow)])))
  /\ (forall fmt (env : Env) m data,
     gate_first env (AuthActions.register fmt data) m
     /\ gate_before_store (snd (run env [] (AuthActions.register fmt data m))) = true
     /\ (fst (checkRateLimit_at (env _ [] DateNow)
                ("register-" +:+ AuthActions.reg_email data) m) = false ->
         run env [] (AuthActions.register fmt data m)
         = ((Returned {| error := Message "Too many registration attempts. Please try again later." |}, m),
            [Observed DateNow (env _ [] DateNow)])))
  /\ (forall (env : Env) m formData,
     gate_before_store (snd (run env [] (createPoll formData m))) = true
     /\ (fst (poll_gate env "create-poll" m) = false ->
         run env [] (createPoll formData m)
         = ((Returned {| error := Message "Too many poll creation attempts. Please try again later." |}, m),
            poll_gate_trace env)))
  /\ (forall fmt (env : Env) m pollId_ formData,
     gate_before_store (snd (run env [] (updatePoll fmt pollId_ formData m))) = true
     /\ (is_uuid fmt pollId_ = false ->
         run env [] (updatePoll fmt pollId_ formData m)
         = ((Returned {| error := Message "Invalid ID format" |}, m), []))
     /\ (is_uuid fmt pollId_ = true ->
         fst (poll_gate env "update-poll" m) = false ->
         run env [] (updatePoll fmt pollId_ formData m)
         = ((Returned {| error := Message "Too many poll update attempts. Please try again later." |}, m),
            poll_gate_trace env)))
  /\ (forall fmt (env : Env) m id_,
     gate_before_store (snd (run env [] (deletePoll fmt id_ m))) = true
     /\ (is_uuid fmt id_ = false ->
         run env [] (deletePoll fmt id_ m)
         = ((Returned {| error := Message "Invalid ID format" |}, m), []))
     /\ (is_uuid fmt id_ = true ->
         fst (poll_gate env "delete-poll" m) = false ->
         run env [] (deletePoll fmt id_ m)
         = ((Returned {| error := Message "Too many poll deletion attempts. Please try again later." |}, m),
            poll_gate_trace env)))
  /\ (forall fmt (env : Env) m pollId_ optionIndex_,
     gate_before_store (snd (run env [] (submitVote fmt pollId_ optionIndex_ m))) = true
     /\ (forall failure,
           voteSchema fmt {| raw_pollId := pollId_; raw_optionIndex := optionIndex_ |}
           = Failure failure ->
           run env [] (submitVote fmt pollId_ optionIndex_ m)
           = ((Returned {| error := first_of (formErrors (flatten failure)) |}, m), []))
     /\ (forall validated,
           voteSchema fmt {| raw_pollId := pollId_; raw_optionIndex := optionIndex_ |}
           = Success validated ->
           fst (poll_gate env "submit-vote" m) = false ->
           run env [] (submitVote fmt pollId_ optionIndex_ m)
           = ((Returned {| error := Message "Too many voting attempts. Please try again later." |}, m),
              poll_gate_trace env)))
  /\ (forall (env : Env) m,
     existsb is_gate (snd (run env [] (AuthActions.logout m))) = false).
Proof.
  repeat apply conj.
  - (* login *)
    intros fmt env m data. unfold gate_first, AuthActions.login.
    action_unfold. repeat split.
    + match goal with
      | |- context [run env ?h ?p] => destruct (run_extends env p h) as [rest ->]
      end.
      reflexivity.
    + now apply gate_before_store_run.
    + intros Hdeny. rewrite (denied_unchanged _ _ _ Hdeny). reflexivity.
  - (* register *)
    intros fmt env m data. unfold gate_first, AuthActions.register.
    action_unfold. repeat split.
    + match goal with
      | |- context [run env ?h ?p] => destruct (run_extends env p h) as [rest ->]
      end.
      reflexivity.
    + now apply gate_before_store_run.
    + intros Hdeny. rewrite (denied_unchanged _ _ _ Hdeny). reflexivity.
  - (* createPoll *)
    intros env m formData. unfold createPoll, poll_gate, poll_gate_trace.
    to_gate. split.
    + now apply gate_before_store_run.
    + intros Hdeny. rewrite (denied_unchanged _ _ _ Hdeny). reflexivity.
  - (* updatePoll *)
    intros fmt env m pollId_ formData. unfold poll_gate, poll_gate_trace.
    repeat split.
    + unfold updatePoll. destruct (idSchema fmt pollId_); [|reflexivity].
      to_gate. now apply gate_before_store_run.
    + intros Hid. unfold updatePoll. now rewrite (idSchema_invalid _ _ Hid).
    + intros Hid Hdeny. unfold updatePoll. rewrite (idSchema_valid _ _ Hid).
      to_gate. rewrite (denied_unchanged _ _ _ Hdeny). reflexivity.
  - (* deletePoll *)
    intros fmt env m id_. unfold poll_gate, poll_gate_trace.
    repeat split.
    + unfold deletePoll. destruct (idSchema fmt id_); [|reflexivity].
      to_gate. now apply gate_before_store_run.
    + intros Hid. unfold deletePoll. now rewrite (idSchema_invalid _ _ Hid).
    + intros Hid Hdeny. unfold deletePoll. rewrite (idSchema_valid _ _ Hid).
      to_gate. rewrite (denied_unchanged _ _ _ Hdeny). reflexivity.
  - (* submitVote *)
    intros fmt env m pollId_ optionIndex_. unfold poll_gate, poll_gate_trace.
    repeat split.
    + unfold submitVote. destruct (voteSchema fmt _); [|reflexivity].
      to_gate. now apply gate_before_store_run.
    + intros failure Hparse. unfold submitVote. now rewrite Hparse.
    + intros validated Hparse Hdeny. unfold submitVote. rewrite Hparse.
      to_gate. rewrite (denied_unchanged _ _ _ Hdeny). reflexivity.
  - (* logout *)
    intros env m. unfold AuthActions.logout. action_unfold.
    destruct (env _ [] AuthSignOut); action_unfold; reflexivity.
Qed.

End ActionFacts.

(* ===================================================================== *)
(** * More on the rate limiter                                            *)
(* ===================================================================== *)

Module RateLimitExtras.
Import RateLimit Spec RateLimitFacts.

(** The answer and the new entry of a key depend on the old entry of
    that key alone. *)
Lemma check_same_entry now key (m m' : gmap string Entry) :
  m !! key = m' !! key ->
  fst (checkRateLimit_at now key m) = fst (checkRateLimit_at now key m')
  /\ snd (checkRateLimit_at now key m) !! key
     = snd (checkRateLimit_at now key m') !! key.
Proof.
  intros Heq. unfold checkRateLimit_at. rewrite <- Heq.
  destruct (m !! key) as [e|] eqn:He; cbn [fst snd].
  - destruct (now - lastReset e >? RESET_INTERVAL); cbn [fst snd];
      [now rewrite !lookup_insert_eq|].
    destruct (count e >=? MAX_ATTEMPTS); cbn [fst snd];
      [now rewrite He, <- Heq | now rewrite !lookup_insert_eq].
  - now rewrite !lookup_insert_eq.
Qed.

Lemma isolation_general key cs : forall (m m' : gmap string Entry),
  m !! key = m' !! key ->
  answers_for key cs m
    = fst (run_calls (List.filter (fun c => String.eqb (fst c) key) cs) m')
  /\ snd (run_calls cs m) !! key
     = snd (run_calls (List.filter (fun c => String.eqb (fst c) key) cs) m') !! key.
Proof.
  induction cs as [|[k now] cs IH]; intros m m' Heq.
  - now split.
  - cbn [answers_for run_calls List.filter fst].
    destruct (String.eqb_spec k key) as [->|Hne].
    + cbn [run_calls].
      destruct (check_same_entry now key m m' Heq) as [Hok Hent].
      destruct (checkRateLimit_at now key m) as [ok m1].
      destruct (checkRateLimit_at now key m') as [ok' m1'].
      cbn [fst snd] in Hok, Hent. subst ok'.
      destruct (IH m1 m1' Hent) as [Hans Htab].
      destruct (run_calls cs m1) as [oks m2].
      destruct (run_calls (List.filter _ cs) m1') as [oks' m2'].
      cbn [fst snd] in *. now rewrite Hans.
    + pose proof (check_other now k key m Hne) as Hother.
      destruct (checkRateLimit_at now k m) as [ok m1]. cbn [snd] in Hother.
      destruct (IH m1 m' ltac:(congruence)) as [Hans Htab].
      destruct (run_calls cs m1) as [oks m2]. cbn [fst snd] in *.
      now split.
Qed.

(** X1. Keys do not interfere: the answers given under a key, and the
    entry the table ends up holding for it, are those of the calls made
    under that key alone, whatever was asked under other keys in
    between. *)
Theorem keys_are_isolated key (cs : list (string * Z)) (m : gmap string Entry) :
  answers_for key cs m
    = fst (run_calls (List.filter (fun c => String.eqb (fst c) key) cs) m)
  /\ snd (run_calls cs m) !! key
     = snd (run_calls (List.filter (fun c => String.eqb (fst c) key) cs) m) !! key.
Proof.
  destruct (isolation_general key cs m m eq_refl) as [Hanswers Hentry].
  split; [exact Hanswers | exact Hentry].
Qed.

(** X2. A denial lasts exactly as long as the window: a key that is
    denied stays denied at every clock reading up to [RESET_INTERVAL]
    after the stored window start (readings before the start included),
    the denied calls do not move that start, and the first reading past
    it is allowed again. *)
Theorem denial_lasts_for_the_window now key (m : gmap string Entry) :
  fst (checkRateLimit_at now key m) = false ->
  exists e,
    m !! key = Some e
    /\ forall later,
         (later - lastReset e <= RESET_INTERVAL ->
          checkRateLimit_at later key m = (false, m))
         /\ (later - lastReset e > RESET_INTERVAL ->
             checkRateLimit_at later key m
             = (true, <[key := {| count := 1; lastReset := later |}]> m)).
Proof.
  intros Hdeny.
  destruct (check_cases now key m)
    as [(Ht & _)|[(Ht & _)|(_ & (e & He & Hfull) & _)]]; try congruence.
  exists e. split; [exact He|]. intros later. split; intros Hlater.
  - unfold checkRateLimit_at. rewrite He.
    assert (H1 : (later - lastReset e >? RESET_INTERVAL) = false)
      by (rewrite Z.gtb_ltb; apply Z.ltb_ge; lia).
    assert (H2 : (count e >=? MAX_ATTEMPTS) = true)
      by (rewrite Z.geb_leb; apply Z.leb_le; lia).
    now rewrite H1, H2.
  - apply check_opens. unfold opens_window. now rewrite He.
Qed.

Lemma denial_lasts_for_the_window_witness :
  exists e,
    exhausted "login-ann@example.org" !! "login-ann@example.org" = Some e
    /\ forall later,
         (later - lastReset e <= RESET_INTERVAL ->
          checkRateLimit_at later "login-ann@example.org"
            (exhausted "login-ann@example.org")
          = (false, exhausted "login-ann@example.org"))
         /\ (later - lastReset e > RESET_INTERVAL ->
             checkRateLimit_at later "login-ann@example.org"
               (exhausted "login-ann@example.org")
             = (true, <["login-ann@example.org"
                        := {| count := 1; lastReset := later |}]>
                        (exhausted "login-ann@example.org"))).
Proof.
  apply (denial_lasts_for_the_window 1000 "login-ann@example.org"
           (exhausted "login-ann@example.org")).
  reflexivity.
Defined.

Lemma allowed_in_window_count (n a : nat) :
  length (List.filter (fun b : bool => b)
            (map (fun i => Z.of_nat i <? MAX_ATTEMPTS) (seq a n)))
  = Nat.min n (5 - a).
Proof.
  revert a. induction n as [|n IH]; intros a; [reflexivity|].
  cbn [seq map List.filter]. unfold MAX_ATTEMPTS in *.
  destruct (Z.ltb_spec (Z.of_nat a) 5) as [Hlt|Hge]; cbn [length];
    rewrite IH; lia.
Qed.

(** X3. However many calls are made under a key inside one window, at
    most [MAX_ATTEMPTS] of them are allowed: of the opening call and the
    [n] calls after it, exactly [min (n + 1) MAX_ATTEMPTS] are. *)
Theorem at_most_max_attempts_per_window key m start cs :
  opens_window start key m ->
  Forall (in_window start) (times_for key cs) ->
  length (List.filter (fun b : bool => b) (answers_for key ((key, start) :: cs) m))
  = Nat.min (S (length (times_for key cs))) (Z.to_nat MAX_ATTEMPTS).
Proof.
  intros Hopen Hall. cbn [answers_for].
  pose proof (check_opens_state start key m Hopen) as Hst.
  rewrite (check_opens _ _ _ Hopen) in *. cbn [snd] in Hst.
  rewrite String.eqb_refl.
  destruct (answers_in_window key start cs 1 _ (le_n 1) Hst Hall) as [-> _].
  cbn [List.filter length]. rewrite allowed_in_window_count.
  change (Z.to_nat MAX_ATTEMPTS) with 5%nat. lia.
Qed.

Lemma at_most_max_attempts_per_window_witness :
  length (List.filter (fun b : bool => b)
            (answers_for "login-ann@example.org"
               [("login-ann@example.org", 1000); ("login-ann@example.org", 1001);
                ("login-ann@example.org", 1002); ("login-ann@example.org", 1003);
                ("login-ann@example.org", 1004); ("login-ann@example.org", 1005);
                ("login-ann@example.org", 1006); ("login-ann@example.org", 1007)]
               empty_table))
  = 5%nat.
Proof.
  apply (at_most_max_attempts_per_window "login-ann@example.org" empty_table 1000
           [("login-ann@example.org", 1001);
            ("login-ann@example.org", 1002); ("login-ann@example.org", 1003);
            ("login-ann@example.org", 1004); ("login-ann@example.org", 1005);
            ("login-ann@example.org", 1006); ("login-ann@example.org", 1007)]).
  - exact I.
  - unfold times_for; simpl.
    repeat (apply List.Forall_cons; [unfold in_window, RESET_INTERVAL; lia|]).
    apply List.Forall_nil.
Defined.

(** X4. The window test is strict. A key that has used its attempts is
    still denied exactly [RESET_INTERVAL] milliseconds after the window
    start, and allowed one millisecond later. *)
Theorem window_boundary_is_strict key (m : gmap string Entry) e :
  m !! key = Some e ->
  MAX_ATTEMPTS <= count e ->
  checkRateLimit_at (lastReset e + RESET_INTERVAL) key m = (false, m)
  /\ checkRateLimit_at (lastReset e + RESET_INTERVAL + 1) key m
     = (true, <[key := {| count := 1;
                          lastReset := lastReset e + RESET_INTERVAL + 1 |}]> m).
Proof.
  intros He Hfull. split.
  - unfold checkRateLimit_at. rewrite He.
    assert (H1 : (lastReset e + RESET_INTERVAL - lastReset e >? RESET_INTERVAL) = false)
      by (rewrite Z.gtb_ltb; apply Z.ltb_ge; lia).
    assert (H2 : (count e >=? MAX_ATTEMPTS) = true)
      by (rewrite Z.geb_leb; apply Z.leb_le; lia).
    now rewrite H1, H2.
  - apply check_opens. unfold opens_window. rewrite He. lia.
Qed.

Lemma window_boundary_is_strict_witness :
  checkRateLimit_at 60000 "login-ann@example.org" (exhausted "login-ann@example.org")
  = (false, exhausted "login-ann@example.org")
  /\ checkRateLimit_at 60001 "login-ann@example.org" (exhausted "login-ann@example.org")
     = (true, <["login-ann@example.org" := {| count := 1; lastReset := 60001 |}]>
                (exhausted "login-ann@example.org")).
Proof.
  apply (window_boundary_is_strict "login-ann@example.org"
           (exhausted "login-ann@example.org")
           {| count := MAX_ATTEMPTS; lastReset := 0 |}).
  - reflexivity.
  - reflexivity.
Defined.

Lemma check_dom now key (m : gmap string Entry) :
  dom (snd (checkRateLimit_at now key m)) = {[ key ]} ∪ dom m.
Proof.
  unfold checkRateLimit_at.
  destruct (m !! key) as [e|] eqn:He; cbn [snd].
  - assert (Hin : key ∈ dom m) by (apply elem_of_dom; eauto).
    destruct (now - lastReset e >? RESET_INTERVAL); cbn [snd];
      [now rewrite dom_insert_L|].
    destruct (count e >=? MAX_ATTEMPTS); cbn [snd];
      [set_solver | now rewrite dom_insert_L].
  - now rewrite dom_insert_L.
Qed.

(** X5. Entries are never evicted: after any sequence of calls the table
    holds an entry for every key it held before and for every key that
    was asked about, and for no other. *)
Theorem entries_are_never_evicted (cs : list (string * Z)) (m : gmap string Entry) :
  dom (snd (run_calls cs m)) = dom m ∪ list_to_set (map fst cs).
Proof.
  revert m. induction cs as [|[k now] cs IH]; intros m.
  - cbn. set_solver.
  - cbn [run_calls map fst list_to_set].
    pose proof (check_dom now k m) as Hdom.
    destruct (checkRateLimit_at now k m) as [ok m1]. cbn [snd] in Hdom.
    specialize (IH m1). destruct (run_calls cs m1) as [oks m2].
    cbn [snd] in *. rewrite IH, Hdom. set_solver.
Qed.

End RateLimitExtras.

(* ===================================================================== *)
(** * More on the schemas                                                 *)
(* ===================================================================== *)

Module SchemaExtras.
Import Zod World Result RateLimit PollActions Spec Coverage.

Lemma conclude_success {A : Type} (issues : list ZodIssue) (data d : A) :
  conclude issues data = Success d <-> issues = [] /\ d = data.
Proof.
  unfold conclude. destruct issues as [|i issues]; split.
  - intros [= <-]. now split.
  - intros [_ ->]. reflexivity.
  - discriminate.
  - intros [[=] _].
Qed.

Lemma conclude_failure {A : Type} (issues : list ZodIssue) (data : A) failure :
  conclude issues data = Failure failure -> failure = issues /\ issues <> [].
Proof.
  unfold conclude. destruct issues as [|i issues]; [discriminate|].
  intros [= <-]. now split.
Qed.

Lemma question_issues_nil (v : option FormDataEntryValue) :
  question_issues v = []
  <-> match v with Some w => string_within 5 255 w | None => False end.
Proof.
  destruct v as [[s|]|]; cbn [string_within].
  - apply ActionFacts.question_issues_boundary.
  - cbn. split; [discriminate | tauto].
  - cbn. split; [discriminate | tauto].
Qed.

Lemma option_issues_nil (i : nat) (v : FormDataEntryValue) :
  option_issues i v = [] <-> string_within 1 100 v.
Proof.
  destruct v as [s|]; cbn [option_issues string_within].
  - unfold min_length, max_length.
    destruct (Nat.ltb_spec (String.length s) 1) as [Hlt|Hge];
      destruct (Nat.ltb_spec 100 (String.length s)) as [Hgt|Hle];
      cbn [app]; split; intros H; try discriminate; try lia; reflexivity.
  - split; [discriminate | tauto].
Qed.

Lemma options_issues_nil (vs : list FormDataEntryValue) : forall i,
  options_issues i vs = [] <-> Forall (string_within 1 100) vs.
Proof.
  induction vs as [|v vs IH]; intros i; cbn [options_issues].
  - split; [intros _; apply List.Forall_nil | reflexivity].
  - split.
    + intros H. apply app_eq_nil in H as [Hv Hvs].
      apply List.Forall_cons; [now apply (option_issues_nil i) | now apply (IH (S i))].
    + intros H. inversion H as [|? ? Hv Hvs]; subst.
      apply (option_issues_nil i) in Hv. apply (IH (S i)) in Hvs.
      now rewrite Hv, Hvs.
Qed.

Lemma pollSchema_success_iff (input : PollInput) (d : PollData) :
  pollSchema input = Success d
  <-> (match raw_question input with
       | Some v => string_within 5 255 v
       | None => False
       end
       /\ (2 <= length (raw_options input))%nat
       /\ Forall (string_within 1 100) (raw_options input)
       /\ d = {| question := match raw_question input with
                             | Some v => trimmed v
                             | None => EmptyString
                             end;
                 options := map trimmed (raw_options input) |}).
Proof.
  unfold pollSchema. rewrite conclude_success.
  rewrite <- question_issues_nil, <- (options_issues_nil _ 0%nat).
  destruct (Nat.ltb_spec (length (raw_options input)) 2) as [Hlt|Hge].
  - split.
    + intros [H _]. apply app_eq_nil in H as [_ H]. discriminate.
    + intros (_ & Hlen & _). lia.
  - cbn [app]. split.
    + intros [H ->]. apply app_eq_nil in H as [Hq Ho]. now repeat split.
    + intros (Hq & _ & Ho & ->). now rewrite Hq, Ho.
Qed.

(** X6. What [pollSchema] lets through, exactly: a question that is a
    string of 5 to 255 code units, and at least two options, each a
    string of 1 to 100 code units; all lengths are taken before
    trimming. What comes out is the trimmed question and the trimmed
    options, in order. *)
Theorem pollSchema_accepts_iff (input : PollInput) (d : PollData) :
  pollSchema input = Success d
  <-> (match raw_question input with
       | Some v => string_within 5 255 v
       | None => False
       end
       /\ (2 <= length (raw_options input))%nat
       /\ Forall (string_within 1 100) (raw_options input)
       /\ d = {| question := match raw_question input with
                             | Some v => trimmed v
                             | None => EmptyString
                             end;
                 options := map trimmed (raw_options input) |}).
Proof.
  split; intros H.
  - now apply pollSchema_success_iff in H.
  - now apply pollSchema_success_iff.
Qed.

Lemma trimEnd_length (s : string) :
  (String.length (trimEnd s) <= String.length s)%nat.
Proof.
  induction s as [|c s IH]; cbn [trimEnd String.length]; [lia|].
  destruct (trimEnd s) as [|c' s'].
  - destruct (is_space c); cbn [String.length]; lia.
  - cbn [String.length] in *. lia.
Qed.

Lemma trimStart_length (s : string) :
  (String.length (trimStart s) <= String.length s)%nat.
Proof.
  induction s as [|c s IH]; cbn [trimStart String.length]; [lia|].
  destruct (is_space c); cbn [String.length]; lia.
Qed.

Lemma trim_length (s : string) :
  (String.length (trim s) <= String.length s)%nat.
Proof.
  unfold trim. pose proof (trimEnd_length (trimStart s)).
  pose proof (trimStart_length s). lia.
Qed.

Lemma trimStart_all_space (s : string) :
  all_space s = true -> trimStart s = EmptyString.
Proof.
  induction s as [|c s IH]; cbn [all_space trimStart]; [reflexivity|].
  intros H. apply andb_true_iff in H as [Hc Hs]. rewrite Hc. now apply IH.
Qed.

Lemma pollSchema_output_bounded (input : PollInput) (d : PollData) :
  pollSchema input = Success d ->
  (2 <= length (options d))%nat
  /\ Forall (fun o => (String.length o <= 100)%nat) (options d)
  /\ (String.length (question d) <= 255)%nat.
Proof.
  intros H. apply pollSchema_success_iff in H as (Hq & Hlen & Hopts & ->).
  cbn [options question]. repeat split.
  - now rewrite length_map.
  - apply List.Forall_map. eapply List.Forall_impl; [|exact Hopts].
    intros [s|]; cbn [string_within trimmed]; [|tauto].
    pose proof (trim_length s). lia.
  - destruct (raw_question input) as [[s|]|]; cbn [string_within trimmed] in *;
      try tauto.
    pose proof (trim_length s). lia.
Qed.

(** X7. The poll that comes out of [pollSchema] has at least two
    options, none longer than 100 code units, and a question of at most
    255; but no lower bound survives the trimming: a question of five or
    more white-space characters is accepted and comes out empty. *)
Theorem pollSchema_output_bounds (input : PollInput) (d : PollData) :
  pollSchema input = Success d ->
  (2 <= length (options d))%nat
  /\ Forall (fun o => (String.length o <= 100)%nat) (options d)
  /\ (String.length (question d) <= 255)%nat
  /\ (forall q, raw_question input = Some (FormString q) ->
                all_space q = true -> question d = EmptyString).
Proof.
  intros H. destruct (pollSchema_output_bounded _ _ H) as (H1 & H2 & H3).
  repeat split; [exact H1 | exact H2 | exact H3 |].
  apply pollSchema_success_iff in H as (_ & _ & _ & ->).
  intros q -> Hspace. cbn [question trimmed]. unfold trim.
  now rewrite (trimStart_all_space _ Hspace).
Qed.

Lemma pollSchema_output_bounds_witness :
  question {| question := EmptyString; options := ["Red"; "Blue"] |} = EmptyString
  /\ pollSchema (poll_input (poll_form "      "))
     = Success {| question := EmptyString; options := ["Red"; "Blue"] |}.
Proof.
  split.
  - refine (proj2 (proj2 (proj2 (pollSchema_output_bounds
              (poll_input (poll_form "      "))
              {| question := EmptyString; options := ["Red"; "Blue"] |} _)))
              "      " _ _); reflexivity.
  - reflexivity.
Defined.

Lemma filter_Boolean_blank (vs1 vs2 : list FormDataEntryValue) :
  List.filter Boolean (vs1 ++ FormString EmptyString :: vs2)
  = List.filter Boolean (vs1 ++ vs2).
Proof. now rewrite !List.filter_app. Qed.

Lemma getAll_app name (fd1 fd2 : FormData) :
  getAll name (fd1 ++ fd2) = getAll name fd1 ++ getAll name fd2.
Proof.
  induction fd1 as [|[n v] fd1 IH]; cbn [getAll app]; [reflexivity|].
  destruct (String.eqb n name); cbn [app]; now rewrite IH.
Qed.

Lemma get_app_other name other v (fd1 fd2 : FormData) :
  other <> name ->
  get name (fd1 ++ (other, v) :: fd2) = get name (fd1 ++ fd2).
Proof.
  intros Hne. induction fd1 as [|[n w] fd1 IH]; cbn [get app].
  - apply String.eqb_neq in Hne. now rewrite Hne.
  - destruct (String.eqb n name); [reflexivity | exact IH].
Qed.

Lemma options_issues_messages (vs : list FormDataEntryValue) : forall i issue,
  Forall (fun v => Boolean v = true) vs ->
  In issue (options_issues i vs) ->
  Zod.message issue <> "Option cannot be empty".
Proof.
  induction vs as [|v vs IH]; intros i issue Hall Hin; cbn [options_issues] in Hin.
  - destruct Hin.
  - inversion Hall as [|? ? Hv Hvs]; subst.
    apply in_app_or in Hin as [Hin|Hin]; [|now apply (IH (S i))].
    destruct v as [[|c s]|]; cbn [Boolean] in Hv; [discriminate| |].
    + cbn [option_issues min_length String.length Nat.ltb Nat.leb app] in Hin.
      unfold max_length in Hin.
      destruct (Nat.ltb 100 _); [|destruct Hin].
      destruct Hin as [<-|[]]. cbn. discriminate.
    + destruct Hin as [<-|[]]. cbn. discriminate.
Qed.

(** X8. Blank option fields are dropped, not rejected. The form that
    [createPoll] and [updatePoll] hand to the schema is the same with or
    without an empty [options] entry, and so the message "Option cannot
    be empty" is never among the issues of a rejected form. *)
Theorem blank_options_are_dropped (fd1 fd2 formData : FormData) failure :
  poll_input (fd1 ++ ("options", FormString EmptyString) :: fd2)
  = poll_input (fd1 ++ fd2)
  /\ (pollSchema (poll_input formData) = Failure failure ->
      ~ In "Option cannot be empty" (map Zod.message failure)).
Proof.
  split.
  - unfold poll_input. f_equal.
    + now apply get_app_other.
    + rewrite !getAll_app. cbn [getAll]. rewrite String.eqb_refl.
      rewrite filter_Boolean_blank. reflexivity.
  - unfold pollSchema. intros H. apply conclude_failure in H as [-> _].
    intros Hin. apply in_map_iff in Hin as (issue & Hmsg & Hin).
    apply in_app_or in Hin as [Hin|Hin].
    { unfold question_issues, min_length, max_length in Hin.
      destruct (raw_question _) as [[s|]|].
      - destruct (Nat.ltb _ 5), (Nat.ltb 255 _); cbn [app In] in Hin;
          repeat (destruct Hin as [<-|Hin]; [cbn in Hmsg; discriminate|]);
          destruct Hin.
      - destruct Hin as [<-|[]]. cbn in Hmsg. discriminate.
      - destruct Hin as [<-|[]]. cbn in Hmsg. discriminate. }
    apply in_app_or in Hin as [Hin|Hin].
    { destruct (Nat.ltb _ 2); [|destruct Hin].
      destruct Hin as [<-|[]]. cbn in Hmsg. discriminate. }
    revert Hmsg. eapply options_issues_messages; [|exact Hin].
    unfold poll_input. cbn [raw_options].
    apply List.Forall_forall. intros v Hv. now apply List.filter_In in Hv.
Qed.

Lemma voteSchema_success_iff fmt (input : VoteInput) (d : VoteData) :
  voteSchema fmt input = Success d
  <-> (is_uuid fmt (raw_pollId input) = true
       /\ raw_optionIndex input = Int (optionIndex d)
       /\ 0 <= optionIndex d
       /\ pollId d = raw_pollId input).
Proof.
  unfold voteSchema. rewrite conclude_success. unfold check_uuid.
  destruct (is_uuid fmt (raw_pollId input)); cbn [app].
  - destruct (raw_optionIndex input) as [z|neg|]; cbn [optionIndex_issues].
    + destruct (Z.ltb_spec z 0) as [Hlt|Hge]; split.
      * intros [[=] _].
      * intros (_ & [= ->] & Hz & _). lia.
      * intros [_ ->]. cbn. now repeat split.
      * intros (_ & [= ->] & _ & Hp). split; [reflexivity|].
        destruct d as [p i]. cbn in *. now subst.
    + split; [intros [[=] _] | intros (_ & [=] & _)].
    + split; [intros [[=] _] | intros (_ & [=] & _)].
  - split; [intros [[=] _] | intros ([=] & _)].
Qed.

(** X9. What [voteSchema] lets through, exactly: an identifier in UUID
    format together with an integer that is not negative; fractions,
    infinities and [NaN] are refused whatever the identifier. *)
Theorem voteSchema_accepts_iff fmt (input : VoteInput) (d : VoteData) :
  voteSchema fmt input = Success d
  <-> (is_uuid fmt (raw_pollId input) = true
       /\ raw_optionIndex input = Int (optionIndex d)
       /\ 0 <= optionIndex d
       /\ pollId d = raw_pollId input).
Proof.
  split; intros H.
  - now apply voteSchema_success_iff in H.
  - now apply voteSchema_success_iff.
Qed.

(** Every issue [voteSchema] can raise sits on a field. *)
Lemma voteSchema_failure_has_no_form_error fmt input failure :
  voteSchema fmt input = Failure failure ->
  first_of (formErrors (flatten failure)) = Undefined.
Proof.
  unfold voteSchema. intros H. apply conclude_failure in H as [-> _].
  rewrite ActionFacts.flatten_fields_only; [reflexivity|].
  apply List.Forall_app. split.
  - unfold check_uuid. destruct (is_uuid _ _);
      [apply List.Forall_nil|].
    apply List.Forall_cons; [discriminate | apply List.Forall_nil].
  - destruct (raw_optionIndex input) as [z|[|]|]; cbn [optionIndex_issues];
      try destruct (z <? 0);
      repeat (apply List.Forall_cons; [discriminate|]); apply List.Forall_nil.
Qed.

(** Every issue [registerSchema] can raise sits on a field. *)
Lemma registerSchema_failure_has_no_form_error fmt data failure :
  AuthActions.registerSchema fmt data = Failure failure ->
  first_of (formErrors (flatten failure)) = Undefined.
Proof.
  unfold AuthActions.registerSchema. intros H.
  apply conclude_failure in H as [-> _].
  rewrite ActionFacts.flatten_fields_only; [reflexivity|].
  unfold min_length, check_email.
  destruct (Nat.ltb _ 2), (is_email fmt _), (Nat.ltb _ 6); cbn [app];
    repeat (apply List.Forall_cons; [discriminate|]); apply List.Forall_nil.
Qed.

End SchemaExtras.

(* ===================================================================== *)
(** * More on the actions                                                 *)
(* ===================================================================== *)

Module ActionExtras.
Import Zod World Result RateLimit PollActions Spec Coverage.
Import ActionFacts SchemaExtras.

(** What holds at every way a program can end holds of its run. *)
Lemma run_throughout {R : Type} (Q : R -> list Obs -> Prop) (env : Env)
    (p : Prog R) :
  forall history,
    throughout Q history p ->
    Q (fst (run env history p)) (snd (run env history p)).
Proof.
  induction p as [r | X e k IH]; intros history Hp; cbn [run throughout] in *.
  - exact Hp.
  - apply IH, Hp.
Qed.

(** Take the next answer apart, or split on what the program looks at. *)
Ltac crack :=
  repeat (unfold mbind, mret, Action_mbind, Action_mret, Action_bind,
                 Action_ret, perform, checkRateLimit;
          cbn [run bind fst snd app always throughout negb
               user userError data World.error];
          match goal with
          | |- forall _ : UserResponse, _ => intros [[?u|] ?ue]
          | |- forall _ : Response _, _ => intros [[?d|] [?e|]]
          | |- forall _ : option BackendError, _ => intros [?e|]
          | |- forall _ : unit, _ => intros []
          | |- forall _ : Z, _ => intros ?now
          | |- context [match ?x with _ => _ end] => destruct x eqn:?
          end).

(** X10. The reads and [logout] are not rate limited: [getPollById],
    [getUserPolls], [getCurrentUser] and [logout] never read the clock of
    the limiter and hand the table back as they got it, whatever the
    backend answers. *)
Theorem reads_and_logout_are_not_rate_limited fmt (env : Env)
    (m : gmap string Entry) id_ :
  (snd (fst (run env [] (getPollById fmt id_ m))) = m
   /\ existsb is_gate (snd (run env [] (getPollById fmt id_ m))) = false)
  /\ (snd (fst (run env [] (getUserPolls m))) = m
      /\ existsb is_gate (snd (run env [] (getUserPolls m))) = false)
  /\ (snd (fst (run env [] (getCurrentUser m))) = m
      /\ existsb is_gate (snd (run env [] (getCurrentUser m))) = false)
  /\ (snd (fst (run env [] (AuthActions.logout m))) = m
      /\ existsb is_gate (snd (run env [] (AuthActions.logout m))) = false).
Proof.
  repeat apply conj;
    try (apply (run_throughout
                  (fun r h => snd r = m /\ existsb is_gate h = false) env));
    unfold getPollById, getUserPolls, getCurrentUser, AuthActions.logout;
    crack; now split.
Qed.

(** X11. [getUserPolls] lists the caller's own polls and nothing else:
    the only store operation it can issue is the listing filtered by the
    id the session lookup reported; an anonymous caller triggers no store
    operation at all; and whenever it reports an error the list it
    returns is empty. *)
Theorem getUserPolls_lists_own_polls_only (env : Env) (m : gmap string Entry) :
  lists_own_polls_only (snd (run env [] (getUserPolls m))) = true
  /\ (polls_error (fst (fst (run env [] (getUserPolls m)))) <> Null ->
      polls (fst (fst (run env [] (getUserPolls m)))) = [])
  /\ (user (env _ [] AuthGetUser) = None ->
      existsb is_store_op (snd (run env [] (getUserPolls m))) = false).
Proof.
  assert (Hgen :
    lists_own_polls_only (snd (run env [] (getUserPolls m))) = true
    /\ (polls_error (fst (fst (run env [] (getUserPolls m)))) <> Null ->
        polls (fst (fst (run env [] (getUserPolls m)))) = [])).
  { apply (run_throughout
             (fun r h =>
                lists_own_polls_only h = true
                /\ (polls_error (fst r) <> Null -> polls (fst r) = [])) env).
    unfold getUserPolls. crack;
      (split; [cbn; rewrite ?String.eqb_refl; reflexivity | cbn; congruence]). }
  destruct Hgen as [Hown Herr]. repeat split; [exact Hown | exact Herr |].
  intros Hnone. unfold getUserPolls. action_unfold. rewrite Hnone. reflexivity.
Qed.

(** X12. [getPollById] is public and asks for one thing: it never looks
    up the session, its only store operation is the read of the poll
    with the id it was given, an id that is no UUID is answered with
    "Invalid ID format" before anything is asked, and it never returns a
    row together with an error. *)
Theorem getPollById_is_public fmt (env : Env) (m : gmap string Entry) id_ :
  existsb is_session_lookup (snd (run env [] (getPollById fmt id_ m))) = false
  /\ reads_poll_only id_ (snd (run env [] (getPollById fmt id_ m))) = true
  /\ (is_uuid fmt id_ = false ->
      run env [] (getPollById fmt id_ m)
      = (({| poll := None; poll_error := Message "Invalid ID format" |}, m), []))
  /\ (poll_error (fst (fst (run env [] (getPollById fmt id_ m)))) <> Null ->
      poll (fst (fst (run env [] (getPollById fmt id_ m)))) = None).
Proof.
  unfold getPollById.
  destruct (is_uuid fmt id_) eqn:Hid.
  - rewrite (idSchema_valid _ _ Hid).
    assert (Hgen :
      throughout
        (fun r h =>
           existsb is_session_lookup h = false
           /\ reads_poll_only id_ h = true
           /\ (poll_error (fst r) <> Null -> poll (fst r) = None))
        []
        ((row ← perform (PollsSelectById id_);
          match World.error row with
          | Some e =>
              _ ← perform (ConsoleError "Error getting poll by ID:" (Some e));
              mret {| poll := None; poll_error := Message "Failed to retrieve poll." |}
          | None => mret {| poll := data row; poll_error := Null |}
          end) m)).
    { crack; repeat split; cbn; rewrite ?String.eqb_refl;
        reflexivity || congruence. }
    apply (run_throughout _ env) in Hgen. destruct Hgen as (H1 & H2 & H3).
    repeat split; [exact H1 | exact H2 | discriminate | exact H3].
  - rewrite (idSchema_invalid _ _ Hid). cbn. repeat split; congruence.
Qed.

(** Pick the member of a list that the goal names. *)
Ltac pick := cbn [In]; repeat (first [left; reflexivity | right]).

(** X13. [login], [register] and [logout] never hand back what the
    backend said: whatever the form and whatever the backend answers,
    they return (they do not throw), and the [error] of the result is
    [null], [undefined] or one of the action's own fixed sentences. *)
Theorem auth_actions_return_fixed_messages fmt (env : Env)
    (m : gmap string Entry) login_form register_form :
  (exists e,
     fst (fst (run env [] (AuthActions.login fmt login_form m)))
     = Returned {| error := e |}
     /\ In e [Null; Undefined;
              Message "Too many login attempts. Please try again later.";
              Message "Login failed. Please check your credentials."])
  /\ (exists e,
        fst (fst (run env [] (AuthActions.register fmt register_form m)))
        = Returned {| error := e |}
        /\ In e [Null; Undefined;
                 Message "Too many registration attempts. Please try again later.";
                 Message "Registration failed"])
  /\ (exists e,
        fst (fst (run env [] (AuthActions.logout m))) = Returned {| error := e |}
        /\ In e [Null; Message "Logout failed. Please try again."]).
Proof.
  repeat apply conj.
  - apply (run_always
             (fun r => exists e, fst r = Returned {| error := e |} /\ In e _) env).
    unfold AuthActions.login. crack;
      try match goal with
          | H : AuthActions.loginSchema _ _ = Failure _ |- _ =>
              rewrite (loginSchema_failure_has_no_form_error _ _ _ H)
          end;
      (eexists; split; [reflexivity | pick]).
  - apply (run_always
             (fun r => exists e, fst r = Returned {| error := e |} /\ In e _) env).
    unfold AuthActions.register. crack;
      try match goal with
          | H : AuthActions.registerSchema _ _ = Failure _ |- _ =>
              rewrite (registerSchema_failure_has_no_form_error _ _ _ H)
          end;
      (eexists; split; [reflexivity | pick]).
  - apply (run_always
             (fun r => exists e, fst r = Returned {| error := e |} /\ In e _) env).
    unfold AuthActions.logout. crack; (eexists; split; [reflexivity | pick]).
Qed.

(** X14. [submitVote] never hands back what the backend said either: it
    always returns, and the [error] of its result is [null], [undefined]
    (the answer to every input the schema rejects) or one of seven fixed
    sentences. *)
Theorem submitVote_returns_fixed_messages fmt (env : Env)
    (m : gmap string Entry) pollId_ optionIndex_ :
  exists e,
    fst (fst (run env [] (submitVote fmt pollId_ optionIndex_ m)))
    = Returned {| error := e |}
    /\ In e [Null; Undefined;
             Message "Too many voting attempts. Please try again later.";
             Message "Poll not found or failed to retrieve poll options.";
             Message "Invalid option selected.";
             Message "You have already voted on this poll.";
             Message "Failed to check for existing vote.";
             Message "Failed to submit vote. Please try again."].
Proof.
  apply (run_always
           (fun r => exists e, fst r = Returned {| error := e |} /\ In e _) env).
  unfold submitVote, submitVote_insert. crack;
    try match goal with
        | H : voteSchema _ _ = Failure _ |- _ =>
            rewrite (voteSchema_failure_has_no_form_error _ _ _ H)
        end;
    (eexists; split; [reflexivity | pick]).
Qed.

(** X15. Every call that reaches the gate costs one attempt, whatever
    becomes of it afterwards (a form the schema rejects, a thrown error,
    a backend failure, a success): the table the action leaves is the one
    the limiter produced. *)
Theorem every_gated_call_costs_one_attempt :
  (forall fmt (env : Env) m form,
     snd (fst (run env [] (AuthActions.login fmt form m)))
     = snd (checkRateLimit_at (env _ [] DateNow)
              ("login-" +:+ AuthActions.email form) m))
  /\ (forall fmt (env : Env) m form,
        snd (fst (run env [] (AuthActions.register fmt form m)))
        = snd (checkRateLimit_at (env _ [] DateNow)
                 ("register-" +:+ AuthActions.reg_email form) m))
  /\ (forall (env : Env) m formData,
        snd (fst (run env [] (createPoll formData m)))
        = snd (poll_gate env "create-poll" m))
  /\ (forall fmt (env : Env) m pollId_ formData,
        is_uuid fmt pollId_ = true ->
        snd (fst (run env [] (updatePoll fmt pollId_ formData m)))
        = snd (poll_gate env "update-poll" m))
  /\ (forall fmt (env : Env) m id_,
        is_uuid fmt id_ = true ->
        snd (fst (run env [] (deletePoll fmt id_ m)))
        = snd (poll_gate env "delete-poll" m))
  /\ (forall fmt (env : Env) m pollId_ optionIndex_ validated,
        voteSchema fmt {| raw_pollId := pollId_; raw_optionIndex := optionIndex_ |}
        = Success validated ->
        snd (fst (run env [] (submitVote fmt pollId_ optionIndex_ m)))
        = snd (poll_gate env "submit-vote" m)).
Proof.
  repeat apply conj.
  - intros fmt env m form. unfold AuthActions.login. action_unfold.
    destruct (checkRateLimit_at _ _ m) as [ok m1]. cbn [snd].
    apply (run_always (fun r => snd r = m1) env). crack; reflexivity.
  - intros fmt env m form. unfold AuthActions.register. action_unfold.
    destruct (checkRateLimit_at _ _ m) as [ok m1]. cbn [snd].
    apply (run_always (fun r => snd r = m1) env). crack; reflexivity.
  - intros env m formData.
    unfold createPoll, poll_gate, gate_time, session_seen. action_unfold.
    destruct (checkRateLimit_at _ _ m) as [ok m1]. cbn [snd].
    apply (run_always (fun r => snd r = m1) env). crack; reflexivity.
  - intros fmt env m pollId_ formData Hid.
    unfold updatePoll, poll_gate, gate_time, session_seen.
    rewrite (idSchema_valid _ _ Hid). action_unfold.
    destruct (checkRateLimit_at _ _ m) as [ok m1]. cbn [snd].
    apply (run_always (fun r => snd r = m1) env). crack; reflexivity.
  - intros fmt env m id_ Hid.
    unfold deletePoll, poll_gate, gate_time, session_seen.
    rewrite (idSchema_valid _ _ Hid). action_unfold.
    destruct (checkRateLimit_at _ _ m) as [ok m1]. cbn [snd].
    apply (run_always (fun r => snd r = m1) env). crack; reflexivity.
  - intros fmt env m pollId_ optionIndex_ validated Hparse.
    unfold submitVote, submitVote_insert, poll_gate, gate_time, session_seen.
    rewrite Hparse. action_unfold.
    destruct (checkRateLimit_at _ _ m) as [ok m1]. cbn [snd].
    apply (run_always (fun r => snd r = m1) env). crack; reflexivity.
Qed.


(** X17. Whatever the backend answers, the poll that [createPoll] inserts
    or [updatePoll] writes has at least two options, none longer than
    100 code units, and a question of at most 255. *)
Theorem written_polls_are_within_bounds fmt (env : Env) (m : gmap string Entry)
    formData id_ :
  Forall write_within_bounds (snd (run env [] (createPoll formData m)))
  /\ Forall write_within_bounds (snd (run env [] (updatePoll fmt id_ formData m))).
Proof.
  split;
    apply (run_throughout (fun _ h => Forall write_within_bounds h) env);
    unfold createPoll, updatePoll; crack;
    repeat (apply List.Forall_cons; [|]); try apply List.Forall_nil;
    try exact I;
    match goal with
    | H : pollSchema _ = Success _ |- _ =>
        destruct (pollSchema_output_bounded _ _ H) as (H1 & H2 & H3)
    end;
    unfold write_within_bounds; cbn; auto.
Qed.

(** X18. [updatePoll] checks no ownership of its own. For any signed-in
    caller, a valid id and a form the schema accepts, it issues the
    update filtered by the poll id and the caller's id without fetching
    the owner first, and when the backend reports no error it returns
    [{ error: null }] and signals no cache invalidation. *)
Theorem updatePoll_relies_on_the_filter
    fmt (env : Env) (m : gmap string Entry) pollId_ formData (d : PollData)
    (u : User) now :
  is_uuid fmt pollId_ = true ->
  pollSchema (poll_input formData) = Success d ->
  (forall h, env _ h AuthGetUser = {| user := Some u; userError := None |}) ->
  (forall h, env _ h DateNow = now) ->
  fst (checkRateLimit_at now (rateLimitKey "update-poll" (Some u)) m) = true ->
  (forall h, env _ h (PollsUpdate pollId_ (id u) (question d) (options d)) = None) ->
  run env [] (updatePoll fmt pollId_ formData m)
  = ((Returned {| error := Null |},
      snd (checkRateLimit_at now (rateLimitKey "update-poll" (Some u)) m)),
     [Observed AuthGetUser {| user := Some u; userError := None |};
      Observed DateNow now;
      Observed AuthGetUser {| user := Some u; userError := None |};
      Observed (PollsUpdate pollId_ (id u) (question d) (options d)) None])
  /\ existsb is_owner_fetch (snd (run env [] (updatePoll fmt pollId_ formData m)))
     = false.
Proof.
  intros Hid Hparse Hau Hnow Hok Hupd.
  destruct (checkRateLimit_at now _ m) as [ok m1] eqn:Hgate.
  cbn [fst snd] in *. subst ok.
  assert (Hrun :
    run env [] (updatePoll fmt pollId_ formData m)
    = ((Returned {| error := Null |}, m1),
       [Observed AuthGetUser {| user := Some u; userError := None |};
        Observed DateNow now;
        Observed AuthGetUser {| user := Some u; userError := None |};
        Observed (PollsUpdate pollId_ (id u) (question d) (options d)) None])).
  { unfold updatePoll. rewrite (idSchema_valid _ _ Hid). action_unfold.
    rewrite Hau, Hnow. cbn [user]. rewrite Hgate. action_unfold.
    unfold poll_input in Hparse. rewrite Hparse. action_unfold.
    rewrite Hau. cbn [user userError]. action_unfold. rewrite Hupd.
    reflexivity. }
  rewrite Hrun. split; reflexivity.
Qed.

(** A run of X18: Bob, signed in, updates the sample poll, which is
    Ann's; the backend reports no error and he is told all went well. *)
Lemma updatePoll_relies_on_the_filter_witness :
  run (answering {| clock := 1000;
                    session := {| user := Some {| id := "bob" |}; userError := None |};
                    auth_error := None;
                    poll_options := poll_options healthy;
                    poll_owner := {| data := Some "ann"; World.error := None |};
                    existing_vote := existing_vote healthy;
                    poll_row := poll_row healthy;
                    user_polls := user_polls healthy;
                    write_error := None |})
      [] (updatePoll sample_formats sample_poll_id (poll_form "Why??") ∅)
  = ((Returned {| error := Null |},
      {[ "update-poll-bob" := {| count := 1; lastReset := 1000 |} ]}),
     [Observed AuthGetUser {| user := Some {| id := "bob" |}; userError := None |};
      Observed DateNow 1000;
      Observed AuthGetUser {| user := Some {| id := "bob" |}; userError := None |};
      Observed (PollsUpdate sample_poll_id "bob" "Why??" ["Red"; "Blue"]) None]).
Proof.
  refine (proj1 (updatePoll_relies_on_the_filter sample_formats _ ∅
                   sample_poll_id (poll_form "Why??")
                   {| question := "Why??"; options := ["Red"; "Blue"] |}
                   {| id := "bob" |} 1000 _ _ _ _ _ _)).
  - reflexivity.
  - reflexivity.
  - reflexivity.
  - reflexivity.
  - reflexivity.
  - reflexivity.
Defined.

(** X19. An anonymous vote is not checked for duplicates. With no session
    user, a valid identifier and an index in range, [submitVote] goes
    from the range test straight to the insert, with a [null] user id and
    without asking whether a vote exists; with no insert error it returns
    no error. The attempt is counted under the one key that all
    anonymous voters share. *)
Theorem anonymous_votes_are_not_deduplicated
    fmt (env : Env) (m : gmap string Entry) pollId_ (idx : Z)
    (opts : list string) ue now :
  is_uuid fmt pollId_ = true ->
  0 <= idx < Z.of_nat (length opts) ->
  (forall h, env _ h AuthGetUser = {| user := None; userError := ue |}) ->
  (forall h, env _ h DateNow = now) ->
  fst (checkRateLimit_at now "submit-vote-anonymous" m) = true ->
  (forall h, env _ h (PollsSelectOptions pollId_)
             = {| data := Some opts; World.error := None |}) ->
  (forall h, env _ h (VotesInsert pollId_ None idx) = None) ->
  run env [] (submitVote fmt pollId_ (Int idx) m)
  = ((Returned {| error := Null |},
      snd (checkRateLimit_at now "submit-vote-anonymous" m)),
     [Observed AuthGetUser {| user := None; userError := ue |};
      Observed DateNow now;
      Observed (PollsSelectOptions pollId_)
               {| data := Some opts; World.error := None |};
      Observed AuthGetUser {| user := None; userError := ue |};
      Observed (VotesInsert pollId_ None idx) None])
  /\ existsb is_vote_lookup (snd (run env [] (submitVote fmt pollId_ (Int idx) m)))
     = false.
Proof.
  intros Hid Hidx Hau Hnow Hok Hopts Hins.
  destruct (checkRateLimit_at now _ m) as [ok m1] eqn:Hgate.
  cbn [fst snd] in *. subst ok.
  assert (Hin : out_of_range idx opts = false) by now apply out_of_range_spec.
  assert (Hrun :
    run env [] (submitVote fmt pollId_ (Int idx) m)
    = ((Returned {| error := Null |}, m1),
       [Observed AuthGetUser {| user := None; userError := ue |};
        Observed DateNow now;
        Observed (PollsSelectOptions pollId_)
                 {| data := Some opts; World.error := None |};
        Observed AuthGetUser {| user := None; userError := ue |};
        Observed (VotesInsert pollId_ None idx) None])).
  { unfold submitVote. rewrite voteSchema_valid by (assumption || lia).
    cbn [pollId optionIndex]. action_unfold. rewrite Hau, Hnow. cbn [user].
    cbn [rateLimitKey]. change ("submit-vote" +:+ "-anonymous")
      with "submit-vote-anonymous". rewrite Hgate. action_unfold.
    rewrite Hopts. cbn [data World.error]. rewrite Hin. action_unfold.
    rewrite Hau. cbn [user]. unfold submitVote_insert. cbn [option_map].
    action_unfold. rewrite Hins. reflexivity. }
  rewrite Hrun. split; reflexivity.
Qed.

(** A run of X19: nobody is signed in and a vote for option 1 is cast. *)
Lemma anonymous_votes_are_not_deduplicated_witness :
  run (answering {| clock := 1000;
                    session := {| user := None; userError := None |};
                    auth_error := None;
                    poll_options := poll_options healthy;
                    poll_owner := poll_owner healthy;
                    existing_vote := existing_vote ann_has_voted;
                    poll_row := poll_row healthy;
                    user_polls := user_polls healthy;
                    write_error := None |})
      [] (submitVote sample_formats sample_poll_id (Int 1) ∅)
  = ((Returned {| error := Null |},
      {[ "submit-vote-anonymous" := {| count := 1; lastReset := 1000 |} ]}),
     [Observed AuthGetUser {| user := None; userError := None |};
      Observed DateNow 1000;
      Observed (PollsSelectOptions sample_poll_id)
               {| data := Some ["Red"; "Blue"]; World.error := None |};
      Observed AuthGetUser {| user := None; userError := None |};
      Observed (VotesInsert sample_poll_id None 1) None]).
Proof.
  refine (proj1 (anonymous_votes_are_not_deduplicated sample_formats _ ∅
                   sample_poll_id 1 ["Red"; "Blue"] None 1000 _ _ _ _ _ _ _)).
  - reflexivity.
  - cbn [length]. lia.
  - reflexivity.
  - reflexivity.
  - reflexivity.
  - reflexivity.
  - reflexivity.
Defined.

Lemma sign_ins_app (h rest : list Obs) :
  length (List.filter is_sign_in (h ++ rest))
  = (length (List.filter is_sign_in h) + length (List.filter is_sign_in rest))%nat.
Proof. now rewrite List.filter_app, length_app. Qed.

(** One login, from any history: the table it leaves, when it is denied,
    and how many password checks it adds. *)
Lemma login_after_gate fmt (env : Env) (h : list Obs) (m : gmap string Entry) form :
  let gate := checkRateLimit_at (env _ h DateNow)
                ("login-" +:+ AuthActions.email form) m in
  let r := run env h (AuthActions.login fmt form m) in
  snd (fst r) = snd gate
  /\ (fst (fst r) = login_denied <-> fst gate = false)
  /\ (length (List.filter is_sign_in (snd r))
      <= length (List.filter is_sign_in h) + (if fst gate then 1 else 0))%nat.
Proof.
  cbn zeta. unfold AuthActions.login. action_unfold.
  destruct (checkRateLimit_at _ _ m) as [[|] m1]; cbn [fst snd negb].
  - destruct (AuthActions.loginSchema fmt form) as [validated|failure] eqn:Hparse.
    + action_unfold.
      destruct (env _ _ (AuthSignInWithPassword _ _)); action_unfold;
        (split; [reflexivity|]); (split; [split; discriminate|]);
        rewrite !sign_ins_app; cbn; lia.
    + action_unfold.
      rewrite (loginSchema_failure_has_no_form_error _ _ _ Hparse).
      split; [reflexivity|]. split; [split; discriminate|].
      rewrite !sign_ins_app; cbn; lia.
  - action_unfold. split; [reflexivity|]. split; [now split|].
    rewrite !sign_ins_app; cbn; lia.
Qed.

Lemma login_all_cons fmt (env : Env) h m form rest :
  run env h (login_all fmt (form :: rest) m)
  = let r1 := run env h (AuthActions.login fmt form m) in
    let r2 := run env (snd r1) (login_all fmt rest (snd (fst r1))) in
    ((fst (fst r1) :: fst (fst r2), snd (fst r2)), snd r2).
Proof.
  cbn [login_all]. unfold mbind, mret, Action_mbind, Action_mret, Action_bind,
    Action_ret.
  rewrite run_bind.
  destruct (run env h (AuthActions.login fmt form m)) as [[o m1] h1].
  cbn [fst snd]. rewrite run_bind.
  destruct (run env h1 (login_all fmt rest m1)) as [[os m2] h2].
  reflexivity.
Qed.

Lemma login_all_in_window fmt (env : Env) addr start forms : forall h m n,
  (1 <= n)%nat ->
  window_state ("login-" +:+ addr) start n m ->
  Forall (fun f => AuthActions.email f = addr) forms ->
  (forall h', in_window start (env _ h' DateNow)) ->
  (forall i o,
     nth_error (fst (fst (run env h (login_all fmt forms m)))) i = Some o ->
     (o = login_denied <-> (5 <= n + i)%nat))
  /\ (length (List.filter is_sign_in (snd (run env h (login_all fmt forms m))))
      <= length (List.filter is_sign_in h) + (5 - n))%nat.
Proof.
  induction forms as [|form rest IH]; intros h m n Hn Hst Hall Hclock.
  - cbn. split; [|lia]. intros [|i] o; discriminate.
  - inversion Hall as [|? ? Haddr Hrest]; subst.
    rewrite login_all_cons. cbn zeta.
    destruct (login_after_gate fmt env h m form) as (Htab & Hden & Hsign).
    destruct (RateLimitFacts.check_in_window _ start n (env _ h DateNow) m
                Hn Hst (Hclock h)) as [Hok Hst1].
    rewrite <- Htab in Hst1. rewrite Hok in Hden, Hsign.
    destruct (run env h (AuthActions.login fmt form m)) as [[o m1] h1].
    cbn [fst snd] in *.
    destruct (IH h1 m1 (S n) ltac:(lia) Hst1 Hrest Hclock) as [Hnth Hcount].
    destruct (run env h1 (login_all fmt rest m1)) as [[os m2] h2].
    cbn [fst snd] in *. split.
    + intros [|i] o' Hi; cbn [nth_error] in Hi.
      * injection Hi as <-. rewrite Hden.
        unfold MAX_ATTEMPTS. rewrite Z.ltb_ge. lia.
      * rewrite (Hnth i o' Hi). lia.
    + unfold MAX_ATTEMPTS in Hsign.
      destruct (Z.ltb_spec (Z.of_nat n) 5); lia.
Qed.

(** X20. Lock-out of [login]. Take any run of logins for one address,
    starting when the address has no live window, with every clock
    reading inside the window the first login opens. Whatever the
    passwords and whatever the backend answers, exactly the logins from
    the sixth on are refused with the rate-limit error, and at most five
    password checks reach the auth backend. *)
Theorem login_lockout fmt (env : Env) (m : gmap string Entry) addr forms :
  Forall (fun f => AuthActions.email f = addr) forms ->
  opens_window (env _ [] DateNow) ("login-" +:+ addr) m ->
  (forall h, in_window (env _ [] DateNow) (env _ h DateNow)) ->
  (forall i o,
     nth_error (fst (fst (run env [] (login_all fmt forms m)))) i = Some o ->
     (o = login_denied <-> (5 <= i)%nat))
  /\ (length (List.filter is_sign_in (snd (run env [] (login_all fmt forms m))))
      <= 5)%nat.
Proof.
  intros Hall Hopen Hclock. destruct forms as [|form rest].
  - cbn. split; [|lia]. intros [|i] o; discriminate.
  - inversion Hall as [|? ? Haddr Hrest]; subst.
    rewrite login_all_cons. cbn zeta.
    destruct (login_after_gate fmt env [] m form) as (Htab & Hden & Hsign).
    pose proof (RateLimitFacts.check_opens_state _ _ _ Hopen) as Hst1.
    rewrite (RateLimitFacts.check_opens _ _ _ Hopen) in Hden, Hsign.
    rewrite <- Htab in Hst1.
    destruct (run env [] (AuthActions.login fmt form m)) as [[o m1] h1].
    cbn [fst snd] in *.
    destruct (login_all_in_window fmt env _ _ rest h1 m1 1 (le_n 1)
                Hst1 Hrest Hclock) as [Hnth Hcount].
    destruct (run env h1 (login_all fmt rest m1)) as [[os m2] h2].
    cbn [fst snd] in *. split.
    + intros [|i] o' Hi; cbn [nth_error] in Hi.
      * injection Hi as <-. rewrite Hden. split; [discriminate | lia].
      * rewrite (Hnth i o' Hi). lia.
    + cbn [List.filter length] in Hsign. lia.
Qed.

(** A run of X20: seven logins for Ann, all at the same clock reading;
    five password checks are made. *)
Lemma login_lockout_witness :
  (length (List.filter is_sign_in
             (snd (run (answering healthy) []
                     (login_all sample_formats
                        (List.repeat {| AuthActions.email := "ann@example.org";
                                        AuthActions.password := "secret123" |} 7)
                        ∅))))
   <= 5)%nat.
Proof.
  refine (proj2 (login_lockout sample_formats (answering healthy) ∅
                   "ann@example.org"
                   (List.repeat {| AuthActions.email := "ann@example.org";
                                   AuthActions.password := "secret123" |} 7)
                   _ _ _)).
  - cbn [List.repeat]. repeat (apply List.Forall_cons; [reflexivity|]).
    apply List.Forall_nil.
  - exact I.
  - intros h. unfold in_window, RESET_INTERVAL. cbn. lia.
Defined.





Lemma append_injective (prefix x y : string) :
  prefix +:+ x = prefix +:+ y -> x = y.
Proof.
  induction prefix as [|c prefix IH]; cbn [String.append]; [tauto|].
  intros [= H]. now apply IH.
Qed.

(** X23. Counters are not shared by accident. In the poll module, two
    keys are equal only for the same action, and then only for the same
    user id (an anonymous caller shares a counter with a user only if
    that user's id is the word "anonymous"); in the auth module a login
    key never equals a register key, and two login keys are equal only
    for the same address. *)
Theorem rate_limit_keys_do_not_collide :
  (forall a1 a2 (u1 u2 : option User),
     In a1 poll_action_names -> In a2 poll_action_names ->
     rateLimitKey a1 u1 = rateLimitKey a2 u2 ->
     a1 = a2
     /\ match u1, u2 with
        | Some x, Some y => id x = id y
        | None, None => True
        | Some x, None | None, Some x => id x = "anonymous"
        end)
  /\ (forall e1 e2 : string, "login-" +:+ e1 <> "register-" +:+ e2)
  /\ (forall e1 e2 : string, "login-" +:+ e1 = "login-" +:+ e2 -> e1 = e2)
  /\ (forall e1 e2 : string, "register-" +:+ e1 = "register-" +:+ e2 -> e1 = e2).
Proof.
  repeat apply conj.
  - intros a1 a2 u1 u2 H1 H2 Hkey.
    assert (Hsame : a1 = a2).
    { cbn [poll_action_names In] in H1, H2.
      destruct H1 as [<-|[<-|[<-|[<-|[]]]]], H2 as [<-|[<-|[<-|[<-|[]]]]];
        try reflexivity; destruct u1, u2; cbn in Hkey; discriminate Hkey. }
    subst a2. split; [reflexivity|].
    unfold rateLimitKey in Hkey.
    destruct u1 as [x|], u2 as [y|]; apply append_injective in Hkey.
    + now apply (append_injective "-") in Hkey.
    + now apply (append_injective "-") in Hkey.
    + symmetry in Hkey. now apply (append_injective "-") in Hkey.
    + exact I.
  - intros e1 e2 H. cbn in H. discriminate H.
  - intros e1 e2. apply append_injective.
  - intros e1 e2. apply append_injective.
Qed.


End ActionExtras.
